(** * DeltaLakeMetadataParser: a shallow embedding and its properties

    The development follows [src/Storages/DataLakes/DeltaLakeMetadataParser.cpp]:
    file names ([withPadding]), the Delta type resolver
    ([getSimpleTypeByName], [getComplexTypeFromObject], [getFieldType]),
    partition literals ([getFieldValue]), the per-file action loop
    ([processMetadataFile]), the checkpoint loader ([getCheckpointIfExists])
    and the driver ([processMetadataFiles]). *)

From Stdlib Require Import NArith ZArith Ascii String Lia.
From stdpp Require Import base option list strings gmap sorting.

Set Warnings "-register-all,-clear-no-such-hyp".

Local Open Scope string_scope.
Local Open Scope N_scope.

(** ** Exceptions

    The four error codes the file declares, and the exceptions raised by the
    helpers it calls (the text readers of IO/ReadHelpers.h, the JSON library,
    the storage layer). *)

Inductive ErrorCode : Type :=
| INCORRECT_DATA
| LOGICAL_ERROR
| BAD_ARGUMENTS
| NOT_IMPLEMENTED
| CANNOT_PARSE_INPUT_ASSERTION_FAILED
| CANNOT_PARSE_NUMBER
| ATTEMPT_TO_READ_AFTER_EOF
| JSON_EXCEPTION
| STORAGE_ERROR
| HELPER_ERROR (code : N).

#[global] Instance ErrorCode_eq_dec : EqDecision ErrorCode.
Proof. solve_decision. Defined.

Inductive Result (A : Type) : Type :=
| Ok (a : A)
| Throw (e : ErrorCode).
Arguments Ok {A} a.
Arguments Throw {A} e.

#[global] Instance Result_ret : MRet Result := fun A a => Ok a.
#[global] Instance Result_bind : MBind Result := fun A B k r =>
  match r with
  | Ok a => k a
  | Throw e => Throw e
  end.

Definition isOk {A} (r : Result A) : bool :=
  match r with Ok _ => true | Throw _ => false end.

(** ** Text helpers *)

Definition repeat_char (n : nat) (c : ascii) : string :=
  string_of_list_ascii (repeat c n).

Definition is_digit (c : ascii) : bool :=
  (48 <=? N_of_ascii c) && (N_of_ascii c <=? 57).

Definition digit_char (d : N) : ascii := ascii_of_N (48 + d).

Definition digit_value (c : ascii) : N := N_of_ascii c - 48.

(** [size_t] and [UInt64] are 64-bit unsigned; arithmetic on them wraps. *)
Definition size_t_modulus : N := 2 ^ 64.
Definition wrap64 (n : N) : N := n mod size_t_modulus.

Fixpoint toString_fuel (fuel : nat) (n : N) : string :=
  match fuel with
  | O => ""
  | S fuel' =>
      if n <? 10 then String (digit_char n) ""
      else toString_fuel fuel' (n / 10) ++ String (digit_char (n mod 10)) ""
  end.

(** Modelled from the spec: [toString] (IO/WriteHelpers.h) is not part of the
    source file; it is [str(v)], the decimal text of [v] without leading
    zeros.  A number has at most as many decimal digits as binary ones, which
    bounds the recursion. *)
Definition toString (n : N) : string :=
  toString_fuel (S (N.to_nat (N.log2 n))) n.

(** [withPadding], lines 71-78.  [padding - version_str.size()] is computed in
    [size_t]. *)
Definition padding : N := 20.

Definition withPadding (version : N) : string :=
  let version_str := toString version in
  repeat_char (N.to_nat (wrap64 (padding + size_t_modulus
                                 - N.of_nat (String.length version_str))))
              "0"%char
  ++ version_str.

Definition metadata_file_suffix : string := ".json".
Definition deltalake_metadata_directory : string := "_delta_log".

(** The name built at line 104 for a version. *)
Definition log_file_name (version : N) : string :=
  withPadding version ++ metadata_file_suffix.

(** The [k] low decimal digits of [n], most significant first. *)
Fixpoint fixed_digits (k : nat) (n : N) : string :=
  match k with
  | O => ""
  | S k' => fixed_digits k' (n / 10) ++ String (digit_char (n mod 10)) ""
  end.

(** ** Reading numbers from a buffer

    A [ReadBufferFromString] is modelled by the text that is still unread. *)

Fixpoint read_digits (acc : N) (buf : string) : N * string :=
  match buf with
  | String c rest =>
      if is_digit c then read_digits (wrap64 (acc * 10 + digit_value c)) rest
      else (acc, buf)
  | EmptyString => (acc, buf)
  end.

Definition starts_with_digit (buf : string) : bool :=
  match buf with
  | String c _ => is_digit c
  | EmptyString => false
  end.

(** Modelled from the spec: [readIntText] (IO/ReadHelpers.h) is not part of
    the source file.  The precision is required: the call reads a run of
    decimal digits into a [size_t] and raises when there is none. *)
Definition readIntText (buf : string) : Result (N * string) :=
  match buf with
  | EmptyString => Throw ATTEMPT_TO_READ_AFTER_EOF
  | String _ _ =>
      if starts_with_digit buf then Ok (read_digits 0 buf)
      else Throw CANNOT_PARSE_NUMBER
  end.

(** Modelled from the spec: [tryReadIntText] (IO/ReadHelpers.h) is not part
    of the source file.  The scale is optional: the call is the non-fatal
    reader, which reports failure and leaves its target [x] as it was when
    no number can be read. *)
Definition tryReadIntText (x : N) (buf : string) : bool * N * string :=
  if starts_with_digit buf
  then let '(v, rest) := read_digits 0 buf in (true, v, rest)
  else (false, x, buf).

(** Modelled from the spec: [skipWhitespaceIfAny] (IO/ReadHelpers.h) is not
    part of the source file; it skips the whitespace around the comma. *)
Fixpoint skipWhitespaceIfAny (buf : string) : string :=
  match buf with
  | String c rest => if Ascii.is_space c then skipWhitespaceIfAny rest else buf
  | EmptyString => buf
  end.

(** Modelled from the spec: [assertChar] (IO/ReadHelpers.h) is not part of
    the source file; it consumes the expected character or raises. *)
Definition assertChar (c : ascii) (buf : string) : Result string :=
  match buf with
  | String c' rest =>
      if decide (c' = c) then Ok rest
      else Throw CANNOT_PARSE_INPUT_ASSERTION_FAILED
  | EmptyString => Throw CANNOT_PARSE_INPUT_ASSERTION_FAILED
  end.

Fixpoint starts_with (prefix s : string) : bool :=
  match prefix, s with
  | EmptyString, _ => true
  | String a p', String b s' => if decide (a = b) then starts_with p' s' else false
  | String _ _, EmptyString => false
  end.

Definition ends_with (suffix s : string) : bool :=
  bool_decide (list_ascii_of_string suffix `suffix_of` list_ascii_of_string s).

(** [std::string_view(type_name.begin() + 8, type_name.end() - 1)]: the text
    between ["decimal("] and the closing parenthesis. *)
Definition decimal_arguments (type_name : string) : string :=
  let chars := list_ascii_of_string type_name in
  string_of_list_ascii (take (length chars - 9) (drop 8 chars)).

Fixpoint is_whitespace (s : string) : bool :=
  match s with
  | EmptyString => true
  | String c rest => Ascii.is_space c && is_whitespace rest
  end.

(** ** Data types *)

Inductive DataType : Type :=
| TString
| TFixedString (n : N)
| TInt8 | TUInt8 | TInt16 | TUInt16 | TInt32 | TUInt32 | TInt64 | TUInt64
| TFloat32 | TFloat64
| TBool
| TDate | TDate32
| TDateTime64 (scale : N)
| TDecimal (precision scale : N)
| TNullable (nested : DataType)
| TTuple (elements : list DataType) (names : list string)
| TArray (element : DataType)
| TMap (key value : DataType).

Fixpoint DataType_eq_dec (a b : DataType) {struct a} : {a = b} + {a <> b}.
Proof.
  decide equality;
    try apply N.eq_dec;
    try (apply (List.list_eq_dec string_dec));
    apply (List.list_eq_dec DataType_eq_dec).
Defined.

#[global] Instance DataType_EqDecision : EqDecision DataType := DataType_eq_dec.

Definition isNullable (t : DataType) : bool :=
  match t with TNullable _ => true | _ => false end.

(** [makeNullable] leaves a type that is already nullable as it is. *)
Definition makeNullable (t : DataType) : DataType :=
  if isNullable t then t else TNullable t.

Definition NameAndTypePair : Type := string * DataType.
Definition NamesAndTypesList : Type := list NameAndTypePair.

Fixpoint tryGetByName (name : string) (l : NamesAndTypesList)
  : option NameAndTypePair :=
  match l with
  | [] => None
  | p :: l' => if decide (fst p = name) then Some p else tryGetByName name l'
  end.

(** [Field], the dynamically typed value of a partition column. *)
Inductive Field : Type :=
| FString (s : string)
| FUInt64 (n : N)
| FInt64 (z : Z)
| FFloat64 (bits : N)
| FDateTime64 (ticks : Z).

#[global] Instance Field_eq_dec : EqDecision Field.
Proof. solve_decision. Defined.

Record DataLakePartitionColumn : Type := {
  name_and_type : NameAndTypePair;
  value : Field
}.

#[global] Instance DataLakePartitionColumn_eq_dec :
  EqDecision DataLakePartitionColumn.
Proof. solve_decision. Defined.

(** ** JSON documents

    A decoded document, as the JSON library hands it to the parser.  The
    members of an object are kept in the order in which the library
    enumerates them ([getNames]); their names are pairwise distinct. *)

Inductive json : Type :=
| JNull
| JBool (b : bool)
| JNumber (n : Z)
| JString (s : string)
| JArray (elements : list json)
| JObject (members : list (string * json)).

Definition Object : Type := list (string * json).

Fixpoint has (object : Object) (key : string) : bool :=
  match object with
  | [] => false
  | (k, _) :: rest => if decide (k = key) then true else has rest key
  end.

(** [object->get(key)]: the empty [Var] when the key is absent. *)
Fixpoint get (object : Object) (key : string) : json :=
  match object with
  | [] => JNull
  | (k, v) :: rest => if decide (k = key) then v else get rest key
  end.

Definition getNames (object : Object) : list string := map fst object.

Definition extract_Object (v : json) : Result Object :=
  match v with
  | JObject members => Ok members
  | _ => Throw JSON_EXCEPTION
  end.

Definition extract_Array (v : json) : Result (list json) :=
  match v with
  | JArray elements => Ok elements
  | _ => Throw JSON_EXCEPTION
  end.

Fixpoint json_depth (v : json) : nat :=
  match v with
  | JArray elements => S (foldr (fun x d => Nat.max (json_depth x) d) O elements)
  | JObject members =>
      S (foldr (fun kv d => Nat.max (let '(_, x) := kv in json_depth x) d) O members)
  | _ => O
  end.

(** ** Collaborators outside the file

    Functions of libraries the parser calls and whose code is elsewhere:
    the JSON library's parser and [Var] conversions, the decimal type
    factory, and the readers of numbers, dates and timestamps. *)

Inductive NumberType : Type :=
| Int8 | UInt8 | Int16 | UInt16 | Int32 | UInt32 | Int64 | UInt64
| Float32 | Float64.

Class Collaborators : Type := {
  (** [Poco::JSON::Parser::parse] *)
  JSON_parse : string -> Result json;
  (** [Var::convert<String>], behind [getValue<String>] *)
  convert_String : json -> Result string;
  (** [Var::convert<bool>], behind [getValue<bool>] *)
  convert_bool : json -> Result bool;
  (** [createDecimal<DataTypeDecimal>(precision, scale)] *)
  createDecimal : N -> N -> Result DataType;
  (** [parse<T>(value)] *)
  parse : NumberType -> string -> Result Field;
  (** [LocalDate{value}.getDayNum()] and [getExtenedDayNum()] *)
  LocalDate_getDayNum : string -> Result N;
  LocalDate_getExtenedDayNum : string -> Result Z;
  (** [readDateTime64Text(time, scale, in, time_zone)]; the time zone is
      read from the type object passed last *)
  readDateTime64Text : N -> string -> DataType -> Result Z;
  (** the content of the local [size_t scale] of [getSimpleTypeByName]
      before anything is stored in it *)
  uninitialized_scale : N
}.

Record Configuration : Type := { getPath : string }.

(** ** Paths ([std::filesystem::path], POSIX) *)

Definition is_absolute (p : string) : bool := starts_with "/" p.

Definition has_filename (p : string) : bool :=
  negb (bool_decide (p = "")) && negb (ends_with "/" p).

(** [fs::path(p) / q] *)
Definition path_append (p q : string) : string :=
  if is_absolute q then q
  else if has_filename p then p ++ "/" ++ q
  else p ++ q.

Fixpoint filename_from (current rest : string) : string :=
  match rest with
  | EmptyString => current
  | String c rest' =>
      if decide (c = "/"%char) then filename_from "" rest'
      else filename_from (current ++ String c "") rest'
  end.

(** [fs::path(p).filename().string()] *)
Definition path_filename (p : string) : string := filename_from "" p.

(** ** Storage

    [MetadataReadHelper] is a template parameter of the parser.  Reading a
    file is taken together with its decoding, which is done by code outside
    the file ([readJSONObjectPossiblyInvalid], the JSON parser, the Parquet
    and Arrow readers): a log or [_last_checkpoint] file yields its JSON
    documents, those that the loop of lines 169-186 reaches after it has
    passed over the bytes before each opening brace and over the empty
    texts; a checkpoint yields the columns of the decoded chunk, each column
    given by the strings of the nested column of its first tuple element. *)

Class MetadataReadHelper : Type := {
  exists_ : string -> Configuration -> bool;
  listFiles : Configuration -> string -> string -> list string;
  readDocuments : string -> Configuration -> Result (list json);
  readCheckpoint : string -> Configuration -> Result (list (list string))
}.

(** Calls to the storage are recorded in the order they are made. *)
Inductive Event : Type :=
| ExistsCall (path : string)
| ListFilesCall (directory suffix : string)
| ReadCall (path : string).

Definition IO (A : Type) : Type := list Event -> Result A * list Event.

#[global] Instance IO_ret : MRet IO := fun A a trace => (Ok a, trace).
#[global] Instance IO_bind : MBind IO := fun A B k m trace =>
  match m trace with
  | (Ok a, trace') => k a trace'
  | (Throw e, trace') => (Throw e, trace')
  end.

Definition io_lift {A} (r : Result A) : IO A := fun trace => (r, trace).

Section Parser.
Context {E : Collaborators}.

Definition getValue_String (object : Object) (key : string) : Result string :=
  convert_String (get object key).

Definition getValue_bool (object : Object) (key : string) : Result bool :=
  convert_bool (get object key).

(** [fields->getObject(i)] followed by a member access: a null pointer is
    dereferenced when the element is not an object. *)
Definition getObject (v : json) : Result Object :=
  match v with
  | JObject members => Ok members
  | _ => Throw JSON_EXCEPTION
  end.

(** [getSimpleTypeByName], lines 334-372. *)
Definition getSimpleTypeByName (type_name : string) : Result DataType :=
  if bool_decide (type_name = "string") || bool_decide (type_name = "binary")
  then Ok TString
  else if bool_decide (type_name = "long") then Ok TInt64
  else if bool_decide (type_name = "integer") then Ok TInt32
  else if bool_decide (type_name = "short") then Ok TInt16
  else if bool_decide (type_name = "byte") then Ok TInt8
  else if bool_decide (type_name = "float") then Ok TFloat32
  else if bool_decide (type_name = "double") then Ok TFloat64
  else if bool_decide (type_name = "boolean") then Ok TBool
  else if bool_decide (type_name = "date") then Ok TDate32
  else if bool_decide (type_name = "timestamp") then Ok (TDateTime64 6)
  else if starts_with "decimal(" type_name && ends_with ")" type_name then
    let buf := decimal_arguments type_name in
    let scale := uninitialized_scale in
    '(precision, buf) ← readIntText buf;
    let buf := skipWhitespaceIfAny buf in
    buf ← assertChar "," buf;
    let buf := skipWhitespaceIfAny buf in
    let '(_, scale, _) := tryReadIntText scale buf in
    createDecimal precision scale
  else Throw BAD_ARGUMENTS.

(** [getComplexTypeFromObject], lines 374-412, with the recursive calls to
    [getFieldType] taken through [getFieldType_rec]. *)
Definition getComplexTypeFromObject
    (getFieldType_rec : Object -> string -> bool -> Result DataType)
    (type : Object) : Result DataType :=
  type_name ← getValue_String type "type";
  if bool_decide (type_name = "struct") then
    fields ← extract_Array (get type "fields");
    elements ← mapM (fun element =>
                       field ← getObject element;
                       name ← getValue_String field "name";
                       required ← getValue_bool field "required";
                       element_type ← getFieldType_rec field "type" required;
                       Ok (element_type, name)) fields;
    Ok (TTuple (map fst elements) (map snd elements))
  else if bool_decide (type_name = "array") then
    is_nullable ← getValue_bool type "containsNull";
    element_type ← getFieldType_rec type "elementType" is_nullable;
    Ok (TArray element_type)
  else if bool_decide (type_name = "map") then
    is_nullable ← getValue_bool type "containsNull";
    key_type ← getFieldType_rec type "keyType" false;
    value_type ← getFieldType_rec type "valueType" is_nullable;
    Ok (TMap key_type value_type)
  else Throw BAD_ARGUMENTS.

(** [getFieldType], lines 272-286: [isObject] selects the first case,
    [isString] the second.  In the last case the message of the exception is
    built first, with [type.toString()] (line 285): an absent or null member
    is an empty value, which the JSON library refuses to convert, so its
    exception is raised in place of BAD_ARGUMENTS.  The recursion descends
    into the document, so the depth of the document bounds it
    ([getFieldType_fuel_stable] below: a larger bound changes nothing). *)
Fixpoint getFieldType_fuel (fuel : nat) (field : Object) (type_key : string)
    (is_nullable : bool) : Result DataType :=
  match get field type_key with
  | JObject type =>
      match fuel with
      | O => Throw JSON_EXCEPTION
      | S fuel' => getComplexTypeFromObject (getFieldType_fuel fuel') type
      end
  | JString type_name =>
      data_type ← getSimpleTypeByName type_name;
      Ok (if is_nullable then makeNullable data_type else data_type)
  | JNull => Throw JSON_EXCEPTION
  | _ => Throw BAD_ARGUMENTS
  end.

Definition getFieldType (field : Object) (type_key : string)
    (is_nullable : bool) : Result DataType :=
  getFieldType_fuel (json_depth (JObject field)) field type_key is_nullable.

(** [getFieldValue], lines 288-332. *)
Definition getFieldValue (value : string) (data_type : DataType) : Result Field :=
  let check_type :=
    match data_type with
    | TNullable nested => nested
    | _ => data_type
    end in
  match check_type with
  | TString | TFixedString _ => Ok (FString value)
  | TInt8 => parse Int8 value
  | TUInt8 | TBool => parse UInt8 value
  | TInt16 => parse Int16 value
  | TUInt16 => parse UInt16 value
  | TInt32 => parse Int32 value
  | TUInt32 => parse UInt32 value
  | TInt64 => parse Int64 value
  | TUInt64 => parse UInt64 value
  | TFloat32 => parse Float32 value
  | TFloat64 => parse Float64 value
  | TDate => n ← LocalDate_getDayNum value; Ok (FUInt64 n)
  | TDate32 => z ← LocalDate_getExtenedDayNum value; Ok (FInt64 z)
  | TDateTime64 _ =>
      time ← readDateTime64Text 6 value data_type; Ok (FDateTime64 time)
  | _ => Throw BAD_ARGUMENTS
  end.

(** ** The state built by the parser

    [processMetadataFiles] owns the three objects that
    [processMetadataFile] and [getCheckpointIfExists] update through
    references. *)

Record ParserState : Type := {
  result_files : gset string;
  current_schema : NamesAndTypesList;
  current_partition_columns : gmap string (list DataLakePartitionColumn)
}.

Definition initial_state : ParserState :=
  {| result_files := ∅; current_schema := []; current_partition_columns := ∅ |}.

Definition with_result_files (st : ParserState) (files : gset string) : ParserState :=
  {| result_files := files;
     current_schema := current_schema st;
     current_partition_columns := current_partition_columns st |}.

Definition with_schema (st : ParserState) (schema : NamesAndTypesList) : ParserState :=
  {| result_files := result_files st;
     current_schema := schema;
     current_partition_columns := current_partition_columns st |}.

Definition with_partition_columns (st : ParserState)
    (columns : gmap string (list DataLakePartitionColumn)) : ParserState :=
  {| result_files := result_files st;
     current_schema := current_schema st;
     current_partition_columns := columns |}.

Variable configuration : Configuration.

(** The loop of lines 206-217 over [partition_values->getNames()], appending
    to the list of the file. *)
Fixpoint readPartitionValues (file_schema : NamesAndTypesList)
    (partition_values : Object) (names : list string)
    (columns : list DataLakePartitionColumn)
  : Result (list DataLakePartitionColumn) :=
  match names with
  | [] => Ok columns
  | name :: names' =>
      value ← getValue_String partition_values name;
      match tryGetByName name file_schema with
      | None => Throw LOGICAL_ERROR
      | Some name_and_type =>
          field ← getFieldValue value (snd name_and_type);
          readPartitionValues file_schema partition_values names'
            (columns ++ [{| name_and_type := name_and_type; value := field |}])
      end
  end.


(** The [add] branch, lines 192-220. *)
Definition processAdd (object : Object) (st : ParserState) : Result ParserState :=
  add_object ← extract_Object (get object "add");
  path ← getValue_String add_object "path";
  let st := with_result_files st
              ({[ path_append (getPath configuration) path ]} ∪ result_files st) in
  let filename := path_filename path in
  match current_partition_columns st !! filename with
  | Some _ => Ok st
  | None =>
      partition_values ← extract_Object (get add_object "partitionValues");
      if bool_decide (length partition_values = O) then Ok st
      else
        columns ← readPartitionValues (current_schema st) partition_values
                    (getNames partition_values) [];
        Ok (with_partition_columns st
              (<[filename := columns]> (current_partition_columns st)))
  end.

(** The [remove] branch, lines 221-225. *)
Definition processRemove (object : Object) (st : ParserState) : Result ParserState :=
  remove_object ← extract_Object (get object "remove");
  path ← getValue_String remove_object "path";
  Ok (with_result_files st
        (result_files st ∖ {[ path_append (getPath configuration) path ]})).

(** The paths named by the [add] and [remove] members of an object. *)
Definition add_path (object : Object) : Result string :=
  add_object ← extract_Object (get object "add");
  getValue_String add_object "path".

Definition remove_path (object : Object) : Result string :=
  remove_object ← extract_Object (get object "remove");
  getValue_String remove_object "path".

(** The [partitionValues] member of the [add] member of an object. *)
Definition add_partition_values (object : Object) : Result Object :=
  add_object ← extract_Object (get object "add");
  extract_Object (get add_object "partitionValues").

(** One element of [fields], lines 239-254. *)
Definition readSchemaField (element : json) : Result NameAndTypePair :=
  field ← getObject element;
  name ← getValue_String field "name";
  _ ← getValue_String field "type";
  is_nullable ← getValue_bool field "nullable";
  schema_metadata_object ← extract_Object (get field "metadata");
  physical_name ←
    (if has schema_metadata_object "delta.columnMapping.physicalName"
     then getValue_String schema_metadata_object "delta.columnMapping.physicalName"
     else Ok name);
  data_type ← getFieldType field "type" is_nullable;
  Ok (physical_name, data_type).

(** The schema a [metaData] member carries, lines 228-255. *)
Definition readSchema (object : Object) : Result NamesAndTypesList :=
  metadata_object ← extract_Object (get object "metaData");
  schema_object ← getValue_String metadata_object "schemaString";
  fields_json ← JSON_parse schema_object;
  fields_object ← extract_Object fields_json;
  fields ← extract_Array (get fields_object "fields");
  mapM readSchemaField fields.

(** The [metaData] branch, lines 226-268. *)
Definition processMetaData (object : Object) (st : ParserState) : Result ParserState :=
  schema ← readSchema object;
  if bool_decide (current_schema st = []) then Ok (with_schema st schema)
  else if bool_decide (current_schema st <> schema) then Throw NOT_IMPLEMENTED
  else Ok st.

(** The [if ... else if ...] of lines 192-225. *)
Definition processAddOrRemove (object : Object) (st : ParserState)
  : Result ParserState :=
  if has object "add" then processAdd object st
  else if has object "remove" then processRemove object st
  else Ok st.

(** The body of the loop of [processMetadataFile] for one decoded object,
    lines 192-268. *)
Definition processObject (object : Object) (st : ParserState) : Result ParserState :=
  st ← processAddOrRemove object st;
  if has object "metaData" then processMetaData object st else Ok st.

(** The schema carried by a document, when it has a [metaData] member
    whose schema can be read. *)
Definition observed_schema (document : json) : option NamesAndTypesList :=
  match document with
  | JObject object =>
      if has object "metaData" then
        match readSchema object with
        | Ok schema => Some schema
        | Throw _ => None
        end
      else None
  | _ => None
  end.

Definition observed_schemas (documents : list json) : list NamesAndTypesList :=
  omap observed_schema documents.

(** The first schema of a list that is not empty, the empty schema when
    there is none. *)
Definition first_nonempty (schemas : list NamesAndTypesList) : NamesAndTypesList :=
  default [] (head (filter (fun schema => schema <> []) schemas)).

(** A document of the log of a table without partitions: an object whose
    [add] member, if any, has a path and empty [partitionValues], whose
    [remove] member, if it is looked at, has a path, and whose [metaData]
    member, if any, carries [schema]. *)
Definition unpartitioned (schema : NamesAndTypesList) (document : json) : Prop :=
  exists object, document = JObject object /\
    (has object "add" = true ->
     exists path, add_path object = Ok path /\ add_partition_values object = Ok []) /\
    (has object "add" = false -> has object "remove" = true ->
     exists path, remove_path object = Ok path) /\
    (has object "metaData" = true -> readSchema object = Ok schema).

(** The documents of one file in order, lines 169-269; line 186 extracts
    the object of each document. *)
Fixpoint processDocuments (documents : list json) (st : ParserState)
  : Result ParserState :=
  match documents with
  | [] => Ok st
  | document :: rest =>
      object ← extract_Object document;
      st ← processObject object st;
      processDocuments rest st
  end.

(** The documents of several files, one file after the other. *)
Fixpoint processFiles (files : list (list json)) (st : ParserState)
  : Result ParserState :=
  match files with
  | [] => Ok st
  | documents :: rest =>
      st ← processDocuments documents st;
      processFiles rest st
  end.

(** The loop over the rows of the checkpoint, lines 546-555. *)
Fixpoint insertCheckpointPaths (path_column : list string) (result : gset string)
  : Result (gset string) :=
  match path_column with
  | [] => Ok result
  | filename :: rest =>
      if bool_decide (filename = "") then insertCheckpointPaths rest result
      else
        let file := path_append (getPath configuration) filename in
        if bool_decide (file ∈ result) then Throw INCORRECT_DATA
        else insertCheckpointPaths rest ({[ file ]} ∪ result)
  end.

Context {helper : MetadataReadHelper}.

Definition io_exists (path : string) : IO bool := fun trace =>
  (Ok (exists_ path configuration), (trace ++ [ExistsCall path])%list).

Definition io_listFiles (directory suffix : string) : IO (list string) :=
  fun trace =>
    (Ok (listFiles configuration directory suffix),
     (trace ++ [ListFilesCall directory suffix])%list).

Definition io_readDocuments (path : string) : IO (list json) := fun trace =>
  (readDocuments path configuration, (trace ++ [ReadCall path])%list).

Definition io_readCheckpoint (path : string) : IO (list (list string)) :=
  fun trace => (readCheckpoint path configuration, (trace ++ [ReadCall path])%list).

Definition metadata_path (name : string) : string :=
  path_append (path_append (getPath configuration) deltalake_metadata_directory)
              name.

(** [processMetadataFile], lines 158-270. *)
Definition processMetadataFile (key : string) (st : ParserState) : IO ParserState :=
  documents ← io_readDocuments key;
  io_lift (processDocuments documents st).

(** Modelled from the spec: the [JSON] class of base/JSON.h is not part of
    the source file; [json["version"].getUInt()] extracts the integer
    [version] of the document as a [UInt64]. *)
Definition getUInt (v : json) : Result N :=
  match v with
  | JNumber n => if (0 <=? n)%Z then Ok (wrap64 (Z.to_N n)) else Throw JSON_EXCEPTION
  | _ => Throw JSON_EXCEPTION
  end.

(** [readLastCheckpointIfExists], lines 427-442. *)
Definition readLastCheckpointIfExists : IO N :=
  let last_checkpoint_file := metadata_path "_last_checkpoint" in
  found ← io_exists last_checkpoint_file;
  if negb found then mret 0
  else
    documents ← io_readDocuments last_checkpoint_file;
    io_lift (match documents with
             | document :: _ =>
                 object ← extract_Object document;
                 getUInt (get object "version")
             | [] => Throw JSON_EXCEPTION
             end).

(** [getCheckpointIfExists], lines 484-558. *)
Definition getCheckpointIfExists (result : gset string) : IO (N * gset string) :=
  version ← readLastCheckpointIfExists;
  if bool_decide (version = 0) then mret (0, result)
  else
    let checkpoint_filename := withPadding version ++ ".checkpoint.parquet" in
    let checkpoint_path := metadata_path checkpoint_filename in
    res_columns ← io_readCheckpoint checkpoint_path;
    if bool_decide (length res_columns <> 2%nat) then io_lift (Throw INCORRECT_DATA)
    else
      let path_column := default [] (head res_columns) in
      result ← io_lift (insertCheckpointPaths path_column result);
      mret (version, result).

(** The loop of lines 102-111.  It ends at the first version whose file is
    absent; [fuel] bounds the number of iterations and [None] reports that
    the bound was reached. *)
Fixpoint processVersions (fuel : nat) (current_version : N) (st : ParserState)
  : IO (option (N * ParserState)) :=
  match fuel with
  | O => mret None
  | S fuel' =>
      let current_version := wrap64 (current_version + 1) in
      let filename := withPadding current_version ++ metadata_file_suffix in
      let file_path := metadata_path filename in
      found ← io_exists file_path;
      if negb found then mret (Some (current_version, st))
      else
        st ← processMetadataFile file_path st;
        processVersions fuel' current_version st
  end.

(** The calls a scan makes after a checkpoint at [version] when the next
    [present] versions have a file and the one after them has none. *)
Fixpoint scan_events (version : N) (present : nat) : list Event :=
  let file_path := metadata_path (log_file_name (version + 1)) in
  match present with
  | O => [ExistsCall file_path]
  | S present' =>
      ExistsCall file_path :: ReadCall file_path :: scan_events (version + 1) present'
  end.

(** The calls made while the checkpoint of [version] is found and loaded. *)
Definition checkpoint_events (version : N) : list Event :=
  [ExistsCall (metadata_path "_last_checkpoint");
   ReadCall (metadata_path "_last_checkpoint");
   ReadCall (metadata_path (withPadding version ++ ".checkpoint.parquet"))].

(** The loop of lines 122-123. *)
Fixpoint processKeys (keys : list string) (st : ParserState) : IO ParserState :=
  match keys with
  | [] => mret st
  | key :: rest => st ← processMetadataFile key st; processKeys rest st
  end.

Record DeltaLakeMetadata : Type := {
  schema : NamesAndTypesList;
  data_files : list string;
  partition_columns : gmap string (list DataLakePartitionColumn)
}.

(** Line 126: the files are listed in the order of the [std::set]. *)
Definition makeMetadata (st : ParserState) : DeltaLakeMetadata :=
  {| schema := current_schema st;
     data_files := merge_sort String.le (elements (result_files st));
     partition_columns := current_partition_columns st |}.

(** [processMetadataFiles], lines 92-127. *)
Definition processMetadataFiles (fuel : nat) : IO (option DeltaLakeMetadata) :=
  '(checkpoint_version, result_files) ← getCheckpointIfExists ∅;
  let st := with_result_files initial_state result_files in
  if negb (bool_decide (checkpoint_version = 0)) then
    r ← processVersions fuel checkpoint_version st;
    mret (match r with
          | Some (_, st) => Some (makeMetadata st)
          | None => None
          end)
  else
    keys ← io_listFiles deltalake_metadata_directory metadata_file_suffix;
    st ← processKeys keys st;
    mret (Some (makeMetadata st)).

End Parser.

(** ** Notions used by the further properties *)

(** The primitive type names of lines 338-357, each with its type. *)
Definition primitive_types : list (string * DataType) :=
  [("string", TString); ("binary", TString); ("long", TInt64);
   ("integer", TInt32); ("short", TInt16); ("byte", TInt8);
   ("float", TFloat32); ("double", TFloat64); ("boolean", TBool);
   ("date", TDate32); ("timestamp", TDateTime64 6)].

(** The types for which [getFieldValue] has no reader. *)
Definition unsupported_partition_type (t : DataType) : bool :=
  match t with
  | TDecimal _ _ | TTuple _ _ | TArray _ | TMap _ _ => true
  | _ => false
  end.

(** The types that are neither nullable nor timestamps. *)
Definition plain_type (t : DataType) : bool :=
  match t with
  | TNullable _ | TDateTime64 _ => false
  | _ => true
  end.

(** [element] is a member of a struct, of a primitive type, and [column] is
    its type (made nullable when [required] is set) with its name. *)
Definition struct_member {E : Collaborators} (element : json)
    (column : DataType * string) : Prop :=
  exists (field : Object) (type_name : string) (data_type : DataType)
         (required : bool),
    element = JObject field /\
    getValue_String field "name" = Ok (snd column) /\
    getValue_bool field "required" = Ok required /\
    get field "type" = JString type_name /\
    getSimpleTypeByName type_name = Ok data_type /\
    fst column = (if required then makeNullable data_type else data_type).

(** A document that carries none of the members the parser looks at
    ([commitInfo], [protocol], [txn] and the like). *)
Definition ignored_document (document : json) : Prop :=
  exists object, document = JObject object /\
    has object "add" = false /\ has object "remove" = false /\
    has object "metaData" = false.

(** [column] is the column read from the element [element] of [fields]: its
    name is the physical name of the metadata when there is one, else the
    name of the field; its type is the type of the field. *)
Definition schema_column {E : Collaborators} (element : json)
    (column : NameAndTypePair) : Prop :=
  exists (field schema_metadata_object : Object) (name type : string)
         (is_nullable : bool),
    element = JObject field /\
    getValue_String field "name" = Ok name /\
    getValue_String field "type" = Ok type /\
    getValue_bool field "nullable" = Ok is_nullable /\
    extract_Object (get field "metadata") = Ok schema_metadata_object /\
    (if has schema_metadata_object "delta.columnMapping.physicalName"
     then getValue_String schema_metadata_object "delta.columnMapping.physicalName"
          = Ok (fst column)
     else fst column = name) /\
    getFieldType field "type" is_nullable = Ok (snd column).

(** The file of [keys] at position [n - 1] is the first that fails, with the
    error [e], when the files are processed in order from the state [st]: the
    files before it are read and their documents processed without error,
    and this one cannot be read, or its documents cannot be processed in the
    state reached. *)
Definition first_failure {E : Collaborators} (configuration : Configuration)
    {helper : MetadataReadHelper} (keys : list string) (st : ParserState)
    (n : nat) (e : ErrorCode) : Prop :=
  exists (contents : list (list json)) (st1 : ParserState) (key : string),
    (0 < n)%nat /\
    Forall2 (fun key documents => readDocuments key configuration = Ok documents)
            (take (n - 1) keys) contents /\
    processFiles configuration contents st = Ok st1 /\
    keys !! (n - 1)%nat = Some key /\
    (readDocuments key configuration = Throw e \/
     exists documents,
       readDocuments key configuration = Ok documents /\
       processDocuments configuration documents st1 = Throw e).

(** A sequence of calls of the scan: every read follows an existence check
    of the same path, and that check found the file; a check that stands
    alone at the end found no file. *)
Fixpoint checked_reads {helper : MetadataReadHelper} (configuration : Configuration)
    (events : list Event) : Prop :=
  match events with
  | [] => True
  | [ExistsCall checked] => exists_ checked configuration = false
  | ExistsCall checked :: ReadCall read :: rest =>
      checked = read /\ exists_ checked configuration = true /\
      checked_reads configuration rest
  | _ => False
  end.

(** ** A reference environment

    Instances of the two interfaces on which the parser can be run: the
    conversions of the JSON library (a string converts to itself, another
    value to its text, a boolean only to itself), a decimal factory with
    bounds on precision and scale, readers of unsigned integers, a table in
    place of the JSON text parser, and a store kept in memory. *)

Module Reference.

Definition reference_createDecimal (precision scale : N) : Result DataType :=
  if (precision <? 1) || (76 <? precision) then Throw (HELPER_ERROR 69)
  else if precision <? scale then Throw (HELPER_ERROR 69)
  else Ok (TDecimal precision scale).

Definition reference_parse (t : NumberType) (value : string) : Result Field :=
  match t with
  | Float32 | Float64 => Throw CANNOT_PARSE_NUMBER
  | _ =>
      '(n, rest) ← readIntText value;
      if bool_decide (rest = "") then
        match t with
        | UInt8 | UInt16 | UInt32 | UInt64 => Ok (FUInt64 n)
        | _ => Ok (FInt64 (Z.of_N n))
        end
      else Throw CANNOT_PARSE_NUMBER
  end.

Definition quoted (s : string) : string :=
  String "034" (s ++ String "034" "").

(** The compact text of a document whose strings need no escaping. *)
Fixpoint render (v : json) : string :=
  match v with
  | JNull => "null"
  | JBool b => if b then "true" else "false"
  | JNumber n => (if (n <? 0)%Z then "-" else "") ++ toString (Z.abs_N n)
  | JString s => quoted s
  | JArray elements =>
      "[" ++ (fix go (l : list json) : string :=
                match l with
                | [] => ""
                | [x] => render x
                | x :: rest => render x ++ "," ++ go rest
                end) elements ++ "]"
  | JObject members =>
      "{" ++ (fix go (l : list (string * json)) : string :=
                match l with
                | [] => ""
                | [(k, x)] => quoted k ++ ":" ++ render x
                | (k, x) :: rest => quoted k ++ ":" ++ render x ++ "," ++ go rest
                end) members ++ "}"
  end.

(** The text parser knows the texts of the documents in [known]. *)
Definition parse_known (known : list json) (text : string) : Result json :=
  match find (fun document => bool_decide (render document = text)) known with
  | Some document => Ok document
  | None => Throw JSON_EXCEPTION
  end.

Definition collaborators (known : list json) : Collaborators := {|
  JSON_parse := parse_known known;
  convert_String v :=
    match v with
    | JString s => Ok s
    | JNull => Throw JSON_EXCEPTION
    | _ => Ok (render v)
    end;
  convert_bool v :=
    match v with JBool b => Ok b | _ => Throw JSON_EXCEPTION end;
  createDecimal := reference_createDecimal;
  parse := reference_parse;
  LocalDate_getDayNum _ := Throw (HELPER_ERROR 38);
  LocalDate_getExtenedDayNum _ := Throw (HELPER_ERROR 38);
  readDateTime64Text _ _ _ := Throw (HELPER_ERROR 41);
  uninitialized_scale := 0
|}.

(** The same environment with another content of the uninitialised
    [scale]. *)
Definition with_uninitialized_scale (E : Collaborators) (n : N) : Collaborators := {|
  JSON_parse := @JSON_parse E;
  convert_String := @convert_String E;
  convert_bool := @convert_bool E;
  createDecimal := @createDecimal E;
  parse := @parse E;
  LocalDate_getDayNum := @LocalDate_getDayNum E;
  LocalDate_getExtenedDayNum := @LocalDate_getExtenedDayNum E;
  readDateTime64Text := @readDateTime64Text E;
  uninitialized_scale := n
|}.

Record Store : Type := {
  json_files : list (string * list json);
  parquet_files : list (string * list (list string))
}.

Fixpoint lookup_file {A} (path : string) (files : list (string * A)) : option A :=
  match files with
  | [] => None
  | (k, v) :: rest => if decide (k = path) then Some v else lookup_file path rest
  end.

Definition store_exists (store : Store) (path : string) : bool :=
  bool_decide (is_Some (lookup_file path (json_files store)))
  || bool_decide (is_Some (lookup_file path (parquet_files store))).

Definition store_list (store : Store) (root directory suffix : string)
  : list string :=
  merge_sort String.le
    (filter (fun key =>
               starts_with (path_append (path_append root directory) "") key
               && ends_with suffix key = true)
            (map fst (json_files store))).

Definition helper (store : Store) : MetadataReadHelper := {|
  exists_ path _ := store_exists store path;
  listFiles configuration directory suffix :=
    store_list store (getPath configuration) directory suffix;
  readDocuments path _ :=
    match lookup_file path (json_files store) with
    | Some documents => Ok documents
    | None => Throw STORAGE_ERROR
    end;
  readCheckpoint path _ :=
    match lookup_file path (parquet_files store) with
    | Some columns => Ok columns
    | None => Throw STORAGE_ERROR
    end
|}.

End Reference.

(** ** Sample logs *)

Module Sample.
Import Reference.

Definition configuration : Configuration := {| getPath := "lake/t" |}.

Definition add_members (path : string) (partitionValues : Object) : Object :=
  [("add", JObject [("path", JString path);
                    ("partitionValues", JObject partitionValues);
                    ("size", JNumber 2560);
                    ("dataChange", JBool true)])].

Definition remove_members (path : string) : Object :=
  [("remove", JObject [("path", JString path); ("dataChange", JBool true)])].

Definition add_and_remove_members (added removed : string) : Object :=
  [("add", JObject [("path", JString added); ("partitionValues", JObject [])]);
   ("remove", JObject [("path", JString removed)])].

Definition add (path : string) (partitionValues : Object) : json :=
  JObject (add_members path partitionValues).

Definition remove (path : string) : json := JObject (remove_members path).

Definition add_and_remove (added removed : string) : json :=
  JObject (add_and_remove_members added removed).

Definition field (name type : string) : json :=
  JObject [("name", JString name); ("type", JString type);
           ("nullable", JBool true); ("metadata", JObject [])].

Definition field_with_physical_name (name type physical_name : string) : json :=
  JObject [("name", JString name); ("type", JString type);
           ("nullable", JBool false);
           ("metadata",
            JObject [("delta.columnMapping.id", JNumber 1);
                     ("delta.columnMapping.physicalName", JString physical_name)])].

Definition schema_document (fields : list json) : json :=
  JObject [("type", JString "struct"); ("fields", JArray fields)].

Definition metaData_members (fields : list json) : Object :=
  [("metaData",
    JObject [("id", JString "bd11ad96");
             ("schemaString", JString (render (schema_document fields)));
             ("partitionColumns", JArray [])])].

Definition metaData (fields : list json) : json :=
  JObject (metaData_members fields).

Definition schema_empty : list json := [].
Definition schema_x_long : list json := [field "x" "long"].
Definition schema_x_string : list json := [field "x" "string"].
Definition schema_a_decimal : list json := [field "a" "decimal(10,2)"; field "b" "long"].
Definition schema_v_long : list json := [field "v" "long"].
Definition schema_user_id : list json :=
  [field_with_physical_name "user_id" "integer" "col-abc"].

Definition environment : Collaborators :=
  collaborators (map schema_document
                   [schema_empty; schema_x_long; schema_x_string;
                    schema_a_decimal; schema_v_long; schema_user_id]).

Definition log_path (name : string) : string := "lake/t/_delta_log/" ++ name.

Definition store (files : list (list json)) : Store :=
  {| json_files := imap (fun i documents =>
                           (log_path (log_file_name (N.of_nat i)), documents)) files;
     parquet_files := [] |}.

Definition store_with_checkpoint (version : N) (paths : list string)
    (files : list (N * list json)) : Store :=
  {| json_files :=
       (log_path "_last_checkpoint", [JObject [("version", JNumber (Z.of_N version))]])
       :: map (fun '(v, documents) => (log_path (log_file_name v), documents)) files;
     parquet_files :=
       [(log_path (withPadding version ++ ".checkpoint.parquet"),
         [paths; map (fun _ => "") paths])] |}.

Definition run (s : Store) : Result (option DeltaLakeMetadata) * list Event :=
  @processMetadataFiles environment configuration (helper s) 100 [].

Definition snapshot (s : Store) : option DeltaLakeMetadata :=
  match fst (run s) with
  | Ok (Some metadata) => Some metadata
  | _ => None
  end.


End Sample.

(** * Properties *)

Example withPadding_0 : log_file_name 0 = "00000000000000000000.json".
Proof. reflexivity. Qed.
Example withPadding_12 : log_file_name 12 = "00000000000000000012.json".
Proof. reflexivity. Qed.
Example withPadding_max :
  log_file_name 18446744073709551615 = "18446744073709551615.json".
Proof. vm_compute. reflexivity. Qed.


(** ** Strings *)

Lemma string_app_nil_r (s : string) : s ++ "" = s.
Proof. induction s as [|c s IH]; [reflexivity|]. unfold String.app in *. simpl. by rewrite IH. Qed.

Lemma string_app_nil_l (s : string) : "" ++ s = s.
Proof. reflexivity. Qed.

Lemma string_app_cons (c : ascii) (s t : string) : String c s ++ t = String c (s ++ t).
Proof. reflexivity. Qed.

Lemma string_app_assoc (s1 s2 s3 : string) : (s1 ++ s2) ++ s3 = s1 ++ (s2 ++ s3).
Proof.
  induction s1 as [|c s1 IH]; [reflexivity|].
  rewrite !string_app_cons. by rewrite IH.
Qed.

Lemma string_app_length (s t : string) :
  String.length (s ++ t) = (String.length s + String.length t)%nat.
Proof.
  induction s as [|c s IH]; [reflexivity|].
  rewrite string_app_cons. simpl. by rewrite IH.
Qed.

Lemma repeat_char_S (n : nat) (c : ascii) :
  repeat_char (S n) c = String c (repeat_char n c).
Proof. reflexivity. Qed.

Lemma repeat_char_snoc (n : nat) (c : ascii) :
  repeat_char (S n) c = repeat_char n c ++ String c "".
Proof.
  induction n as [|n IH]; [reflexivity|].
  rewrite repeat_char_S, IH at 1. by rewrite <- string_app_cons, <- repeat_char_S.
Qed.

Lemma repeat_char_length (n : nat) (c : ascii) : String.length (repeat_char n c) = n.
Proof. induction n as [|n IH]; [reflexivity|]. rewrite repeat_char_S. simpl. by rewrite IH. Qed.

(** ** Decimal text *)

Lemma toString_fuel_enough (f1 : nat) : forall (f2 : nat) (n : N),
  (0 < f1)%nat -> (0 < f2)%nat ->
  n < 2 ^ N.of_nat f1 -> n < 2 ^ N.of_nat f2 ->
  toString_fuel f1 n = toString_fuel f2 n.
Proof.
  induction f1 as [|f1 IH]; intros f2 n H1 H2 Hn1 Hn2; [lia|].
  destruct f2 as [|f2]; [lia|]. simpl.
  destruct (N.ltb_spec n 10) as [Hlt|Hge]; [reflexivity|].
  rewrite Nat2N.inj_succ, N.pow_succ_r' in Hn1, Hn2.
  assert (Hpos : forall f, n < 2 * 2 ^ N.of_nat f -> (0 < f)%nat).
  { intros [|f] Hf; [simpl in Hf; lia | lia]. }
  f_equal. apply IH; auto.
  - apply N.Div0.div_lt_upper_bound; lia.
  - apply N.Div0.div_lt_upper_bound; lia.
Qed.

Lemma toString_unfold (n : N) :
  toString n =
  if n <? 10 then String (digit_char n) ""
  else toString (n / 10) ++ String (digit_char (n mod 10)) "".
Proof.
  unfold toString at 1. simpl.
  destruct (N.ltb_spec n 10) as [Hlt|Hge]; [reflexivity|].
  f_equal. unfold toString.
  assert (Hn : n < 2 * 2 ^ N.log2 n).
  { rewrite <- N.pow_succ_r'. apply N.log2_spec. lia. }
  assert (Hq : 1 <= n / 10).
  { apply N.div_le_lower_bound; lia. }
  apply toString_fuel_enough.
  - assert (3 <= N.log2 n); [|lia].
    change 3 with (N.log2 8). apply N.log2_le_mono. lia.
  - lia.
  - rewrite N2Nat.id. apply N.Div0.div_lt_upper_bound; lia.
  - rewrite Nat2N.inj_succ, N2Nat.id. apply N.log2_spec. lia.
Qed.

Lemma fixed_digits_0 (k : nat) : fixed_digits k 0 = repeat_char k "0".
Proof.
  induction k as [|k IH]; [reflexivity|].
  simpl fixed_digits. change (0 / 10) with 0. rewrite IH.
  by rewrite repeat_char_snoc.
Qed.

Lemma fixed_digits_length (k : nat) (n : N) : String.length (fixed_digits k n) = k.
Proof.
  revert n. induction k as [|k IH]; intros n; [reflexivity|].
  simpl fixed_digits. rewrite string_app_length, IH. simpl. lia.
Qed.

(** Padding the decimal text of [n] to width [k] gives its [k] digits. *)
Lemma toString_padded (k : nat) : forall n : N,
  (0 < k)%nat -> n < 10 ^ N.of_nat k ->
  (String.length (toString n) <= k)%nat /\
  repeat_char (k - String.length (toString n)) "0" ++ toString n = fixed_digits k n.
Proof.
  induction k as [|k IH]; intros n Hk Hn; [lia|].
  rewrite Nat2N.inj_succ, N.pow_succ_r' in Hn.
  rewrite toString_unfold. simpl fixed_digits.
  destruct (N.ltb_spec n 10) as [Hlt|Hge].
  - rewrite N.div_small, N.mod_small, fixed_digits_0 by lia. simpl String.length.
    split; [lia|]. by replace (S k - 1)%nat with k by lia.
  - assert (Hk' : (0 < k)%nat).
    { destruct k; [simpl in Hn; lia | lia]. }
    destruct (IH (n / 10) Hk') as [Hlen Heq].
    { apply N.Div0.div_lt_upper_bound; lia. }
    rewrite string_app_length. simpl String.length.
    split; [lia|].
    replace (S k - (String.length (toString (n / 10)) + 1))%nat
      with (k - String.length (toString (n / 10)))%nat by lia.
    by rewrite <- string_app_assoc, Heq.
Qed.

Lemma toString_length_20 (v : N) :
  v < 10 ^ 20 -> (String.length (toString v) <= 20)%nat.
Proof. intros Hv. apply (toString_padded 20); [lia | exact Hv]. Qed.

Lemma withPadding_fixed_digits (v : N) :
  v < 10 ^ 20 -> withPadding v = fixed_digits 20 v.
Proof.
  intros Hv. destruct (toString_padded 20 v) as [Hlen Heq]; [lia | exact Hv |].
  unfold withPadding. rewrite <- Heq. f_equal. f_equal.
  unfold wrap64, padding, size_t_modulus.
  replace (20 + 2 ^ 64 - N.of_nat (String.length (toString v)))
    with (20 - N.of_nat (String.length (toString v)) + 1 * 2 ^ 64) by lia.
  rewrite N.Div0.mod_add, N.mod_small by lia. lia.
Qed.

(** ** Order of the names *)

Lemma compare_app (s1 : string) : forall (s2 t1 t2 : string),
  String.length s1 = String.length s2 ->
  String.compare (s1 ++ t1) (s2 ++ t2) =
  match String.compare s1 s2 with
  | Eq => String.compare t1 t2
  | c => c
  end.
Proof.
  induction s1 as [|a s1 IH]; intros [|b s2] t1 t2 Hlen; try discriminate.
  - reflexivity.
  - rewrite !string_app_cons. simpl.
    destruct (Ascii.compare a b); try reflexivity.
    apply IH. simpl in Hlen. lia.
Qed.

Lemma compare_refl (s : string) : String.compare s s = Eq.
Proof.
  induction s as [|a s IH]; [reflexivity|]. simpl.
  unfold Ascii.compare. by rewrite N.compare_refl.
Qed.

Lemma digit_char_compare (x y : N) :
  x < 10 -> y < 10 -> Ascii.compare (digit_char x) (digit_char y) = N.compare x y.
Proof.
  intros Hx Hy. unfold Ascii.compare, digit_char.
  rewrite !N_ascii_embedding by lia.
  destruct (N.compare_spec x y);
    [apply N.compare_eq_iff | apply N.compare_lt_iff | apply N.compare_gt_iff]; lia.
Qed.

Lemma compare_div_mod (a b : N) :
  N.compare a b =
  match N.compare (a / 10) (b / 10) with
  | Eq => N.compare (a mod 10) (b mod 10)
  | c => c
  end.
Proof.
  pose proof (N.div_mod a 10 ltac:(lia)) as Ha.
  pose proof (N.div_mod b 10 ltac:(lia)) as Hb.
  pose proof (N.mod_lt a 10 ltac:(lia)) as Ha'.
  pose proof (N.mod_lt b 10 ltac:(lia)) as Hb'.
  revert Ha Hb Ha' Hb'.
  generalize (a / 10) (b / 10) (a mod 10) (b mod 10).
  intros qa qb ra rb -> -> Ha Hb.
  destruct (N.compare_spec qa qb) as [Heq|Hlt|Hgt].
  - destruct (N.compare_spec ra rb);
      [apply N.compare_eq_iff | apply N.compare_lt_iff | apply N.compare_gt_iff]; lia.
  - apply N.compare_lt_iff. lia.
  - apply N.compare_gt_iff. lia.
Qed.

Lemma fixed_digits_compare (k : nat) : forall a b : N,
  a < 10 ^ N.of_nat k -> b < 10 ^ N.of_nat k ->
  String.compare (fixed_digits k a) (fixed_digits k b) = N.compare a b.
Proof.
  induction k as [|k IH]; intros a b Ha Hb.
  - simpl in *. assert (a = 0) by lia. assert (b = 0) by lia. by subst.
  - rewrite Nat2N.inj_succ, N.pow_succ_r' in Ha, Hb.
    simpl fixed_digits.
    rewrite compare_app by (by rewrite !fixed_digits_length).
    rewrite IH by (apply N.Div0.div_lt_upper_bound; lia).
    rewrite (compare_div_mod a b).
    destruct (N.compare (a / 10) (b / 10)); try reflexivity.
    simpl. rewrite digit_char_compare by (apply N.mod_lt; lia).
    by destruct (N.compare (a mod 10) (b mod 10)).
Qed.

Lemma toString_digits_bounds (k : nat) : forall n : N,
  n < 10 ^ N.of_nat k ->
  (1 <= String.length (toString n))%nat /\
  n < 10 ^ N.of_nat (String.length (toString n)) /\
  (n <> 0 -> 10 ^ N.of_nat (String.length (toString n) - 1) <= n).
Proof.
  induction k as [|k IH]; intros n Hn.
  - simpl in Hn. assert (n = 0) by lia. subst.
    change (toString 0) with "0". simpl. split; [lia|]. split; [lia | congruence].
  - rewrite Nat2N.inj_succ, N.pow_succ_r' in Hn.
    rewrite toString_unfold.
    destruct (N.ltb_spec n 10) as [Hlt|Hge].
    + simpl. repeat split; lia.
    + destruct (IH (n / 10)) as (H1 & H2 & H3).
      { apply N.Div0.div_lt_upper_bound; lia. }
      pose proof (N.div_mod n 10 ltac:(lia)) as Hdm.
      pose proof (N.mod_lt n 10 ltac:(lia)) as Hm.
      assert (Hq : n / 10 <> 0).
      { intros Hz. rewrite Hz in Hdm. lia. }
      specialize (H3 Hq).
      rewrite string_app_length. simpl String.length.
      revert H1 H2 H3 Hdm Hm.
      generalize (String.length (toString (n / 10))).
      generalize (n / 10) (n mod 10).
      intros q r d H1 H2 H3 Hdm Hm.
      replace (d + 1 - 1)%nat with (S (d - 1)) by lia.
      replace (d + 1)%nat with (S d) by lia.
      rewrite !Nat2N.inj_succ, !N.pow_succ_r'.
      repeat split; [lia | lia | intros _; lia].
Qed.

(** C8.  For every version [v < 10^20] the name of its log file is
    [20 - digits(v)] zero characters, then the decimal text of [v], then
    [".json"], where [digits(v)], the length of that text, is at least 1, at
    most 20 and is the number of decimal digits of [v]
    ([10^(digits-1) <= v < 10^digits] for [v > 0]); and comparing the names of
    two such versions as strings gives the comparison of the versions. *)
Theorem log_file_name_padding_law (v : N) :
  v < 10 ^ 20 ->
  let digits := String.length (toString v) in
  (1 <= digits <= 20)%nat /\
  v < 10 ^ N.of_nat digits /\
  (v <> 0 -> 10 ^ N.of_nat (digits - 1) <= v) /\
  log_file_name v = repeat_char (20 - digits) "0" ++ toString v ++ ".json" /\
  forall w : N, w < 10 ^ 20 ->
    String.compare (log_file_name v) (log_file_name w) = N.compare v w.
Proof.
  intros Hv digits.
  destruct (toString_digits_bounds 20 v Hv) as (H1 & H2 & H3).
  destruct (toString_padded 20 v) as [Hlen Heq]; [lia | exact Hv |].
  repeat split; try assumption.
  - unfold log_file_name. rewrite withPadding_fixed_digits by exact Hv.
    rewrite <- Heq. by rewrite string_app_assoc.
  - intros w Hw. unfold log_file_name.
    rewrite !withPadding_fixed_digits by assumption.
    rewrite compare_app by (by rewrite !fixed_digits_length).
    rewrite (fixed_digits_compare 20) by assumption.
    rewrite compare_refl. by destruct (N.compare v w).
Qed.

Lemma log_file_name_padding_law_witness :
  12 < 10 ^ 20 /\
  log_file_name 12 = repeat_char 18 "0" ++ "12" ++ ".json" /\
  String.compare (log_file_name 12) (log_file_name 100) = Lt.
Proof.
  split; [reflexivity|].
  pose proof (log_file_name_padding_law 12 eq_refl) as (_ & _ & _ & Hname & Hord).
  split; [exact Hname | exact (Hord 100 eq_refl)].
Defined.

(** ** Reading back decimal text *)

Lemma list_ascii_of_string_app (s t : string) :
  list_ascii_of_string (s ++ t) = (list_ascii_of_string s ++ list_ascii_of_string t)%list.
Proof.
  induction s as [|c s IH]; [reflexivity|].
  rewrite string_app_cons. simpl. by rewrite IH.
Qed.

Lemma list_ascii_of_string_length (s : string) :
  length (list_ascii_of_string s) = String.length s.
Proof. induction s as [|c s IH]; [reflexivity|]. simpl. by rewrite IH. Qed.

Lemma starts_with_app (p s : string) : starts_with p (p ++ s) = true.
Proof.
  induction p as [|c p IH]; [reflexivity|].
  rewrite string_app_cons. simpl. by rewrite decide_True.
Qed.

Lemma ends_with_app (s suffix : string) : ends_with suffix (s ++ suffix) = true.
Proof.
  unfold ends_with. apply bool_decide_eq_true.
  rewrite list_ascii_of_string_app. by apply suffix_app_r.
Qed.

Lemma decimal_arguments_spec (arguments : string) :
  decimal_arguments ("decimal(" ++ arguments ++ ")") = arguments.
Proof.
  unfold decimal_arguments.
  rewrite !list_ascii_of_string_app, !length_app.
  change (list_ascii_of_string "decimal(") with (list_ascii_of_string "decimal(").
  replace (length (list_ascii_of_string "decimal(")) with 8%nat by reflexivity.
  replace (length (list_ascii_of_string ")")) with 1%nat by reflexivity.
  rewrite drop_app_length' by reflexivity.
  replace (8 + (length (list_ascii_of_string arguments) + 1) - 9)%nat
    with (length (list_ascii_of_string arguments)) by lia.
  rewrite take_app_length. apply string_of_list_ascii_of_string.
Qed.

Lemma is_digit_digit_char (d : N) : d < 10 -> is_digit (digit_char d) = true.
Proof.
  intros Hd. unfold is_digit, digit_char. rewrite N_ascii_embedding by lia.
  apply andb_true_intro. split; apply N.leb_le; lia.
Qed.

Lemma digit_value_digit_char (d : N) : d < 10 -> digit_value (digit_char d) = d.
Proof.
  intros Hd. unfold digit_value, digit_char. rewrite N_ascii_embedding by lia. lia.
Qed.

Lemma toString_head (n : N) :
  exists c s, toString n = String c s /\ is_digit c = true.
Proof.
  induction n as [n IH] using (well_founded_induction N.lt_wf_0).
  rewrite toString_unfold.
  destruct (N.ltb_spec n 10) as [Hlt|Hge].
  - eexists _, _. split; [reflexivity|]. by apply is_digit_digit_char.
  - destruct (IH (n / 10)) as (c & s & Heq & Hc).
    { apply N.div_lt; lia. }
    rewrite Heq, string_app_cons. by eexists _, _.
Qed.

Lemma toString_starts_with_digit (n : N) (rest : string) :
  starts_with_digit (toString n ++ rest) = true.
Proof.
  destruct (toString_head n) as (c & s & -> & Hc).
  by rewrite string_app_cons.
Qed.

Lemma read_digits_toString (n : N) : forall rest : string,
  n < 2 ^ 64 ->
  read_digits 0 (toString n ++ rest) = read_digits n rest.
Proof.
  induction n as [n IH] using (well_founded_induction N.lt_wf_0).
  intros rest Hn. rewrite toString_unfold.
  destruct (N.ltb_spec n 10) as [Hlt|Hge].
  - rewrite string_app_cons. simpl.
    rewrite is_digit_digit_char, digit_value_digit_char by exact Hlt.
    unfold wrap64, size_t_modulus. by rewrite N.mod_small by lia.
  - pose proof (N.div_mod n 10 ltac:(lia)) as Hdm.
    pose proof (N.mod_lt n 10 ltac:(lia)) as Hm.
    assert (Hq : n / 10 < n) by (apply N.div_lt; lia).
    rewrite string_app_assoc, IH by (assumption || lia).
    rewrite string_app_cons. simpl.
    rewrite is_digit_digit_char, digit_value_digit_char by exact Hm.
    unfold wrap64, size_t_modulus.
    rewrite N.mod_small by lia. f_equal. lia.
Qed.

Lemma read_digits_stop (acc : N) (rest : string) :
  starts_with_digit rest = false -> read_digits acc rest = (acc, rest).
Proof. destruct rest as [|c rest]; [reflexivity|]. simpl. by intros ->. Qed.

Lemma readIntText_toString (n : N) (rest : string) :
  n < 2 ^ 64 -> starts_with_digit rest = false ->
  readIntText (toString n ++ rest) = Ok (n, rest).
Proof.
  intros Hn Hrest. unfold readIntText.
  rewrite toString_starts_with_digit.
  destruct (toString_head n) as (c & s & Heq & _).
  rewrite Heq, string_app_cons, <- string_app_cons, <- Heq.
  by rewrite read_digits_toString, read_digits_stop.
Qed.

Lemma tryReadIntText_toString (x n : N) (rest : string) :
  n < 2 ^ 64 -> starts_with_digit rest = false ->
  tryReadIntText x (toString n ++ rest) = (true, n, rest).
Proof.
  intros Hn Hrest. unfold tryReadIntText.
  rewrite toString_starts_with_digit.
  by rewrite read_digits_toString, read_digits_stop.
Qed.

Lemma skipWhitespaceIfAny_app (ws rest : string) :
  is_whitespace ws = true ->
  skipWhitespaceIfAny (ws ++ rest) = skipWhitespaceIfAny rest.
Proof.
  induction ws as [|c ws IH]; [reflexivity|].
  rewrite string_app_cons. simpl.
  intros [Hc Hws]%andb_prop. rewrite Hc. auto.
Qed.

Lemma is_digit_not_space (c : ascii) : is_digit c = true -> Ascii.is_space c = false.
Proof.
  destruct c as [[] [] [] [] [] [] [] []]; vm_compute; congruence.
Qed.

Lemma is_space_not_digit (c : ascii) : Ascii.is_space c = true -> is_digit c = false.
Proof.
  destruct c as [[] [] [] [] [] [] [] []]; vm_compute; congruence.
Qed.

Lemma whitespace_then_no_digit (ws rest : string) :
  is_whitespace ws = true -> starts_with_digit rest = false ->
  starts_with_digit (ws ++ rest) = false.
Proof.
  destruct ws as [|c ws]; [done|].
  rewrite string_app_cons. simpl. intros [Hc _]%andb_prop _.
  by apply is_space_not_digit.
Qed.

Lemma skipWhitespaceIfAny_toString (n : N) (rest : string) :
  skipWhitespaceIfAny (toString n ++ rest) = toString n ++ rest.
Proof.
  destruct (toString_head n) as (c & s & -> & Hc).
  rewrite string_app_cons. simpl. by rewrite is_digit_not_space.
Qed.

(** ** Decimal type names *)

Section DecimalNames.
Context {E : Collaborators}.

Lemma getSimpleTypeByName_decimal (arguments : string) :
  getSimpleTypeByName ("decimal(" ++ arguments ++ ")") =
  ('(precision, buf) ← readIntText arguments;
   buf ← assertChar "," (skipWhitespaceIfAny buf);
   let '(_, scale, _) := tryReadIntText uninitialized_scale (skipWhitespaceIfAny buf) in
   createDecimal precision scale).
Proof.
  unfold getSimpleTypeByName.
  pose proof (starts_with_app "decimal(" (arguments ++ ")")) as Hstart.
  assert (Hne : forall name : string,
             starts_with "decimal(" name = false ->
             bool_decide ("decimal(" ++ arguments ++ ")" = name) = false).
  { intros name Hname. apply bool_decide_eq_false. intros Heq.
    rewrite Heq in Hstart. congruence. }
  rewrite !Hne by reflexivity. simpl orb. cbv iota.
  rewrite Hstart.
  replace ("decimal(" ++ arguments ++ ")") with (("decimal(" ++ arguments) ++ ")")
    by apply string_app_assoc.
  rewrite ends_with_app. simpl andb. cbv iota.
  rewrite string_app_assoc, decimal_arguments_spec.
  reflexivity.
Qed.

Lemma getSimpleTypeByName_decimal_pair (p s : N) (ws1 ws2 : string) :
  p < 2 ^ 64 -> s < 2 ^ 64 ->
  is_whitespace ws1 = true -> is_whitespace ws2 = true ->
  getSimpleTypeByName
    ("decimal(" ++ toString p ++ ws1 ++ "," ++ ws2 ++ toString s ++ ")")
  = createDecimal p s.
Proof.
  intros Hp Hs Hws1 Hws2.
  replace ("decimal(" ++ toString p ++ ws1 ++ "," ++ ws2 ++ toString s ++ ")")
    with ("decimal(" ++ (toString p ++ ws1 ++ "," ++ ws2 ++ toString s ++ "") ++ ")")
    by (by rewrite !string_app_assoc).
  rewrite getSimpleTypeByName_decimal.
  rewrite readIntText_toString;
    [| exact Hp | by apply whitespace_then_no_digit].
  simpl. rewrite skipWhitespaceIfAny_app by exact Hws1.
  rewrite string_app_cons. simpl. rewrite string_app_nil_l.
  rewrite skipWhitespaceIfAny_app by exact Hws2.
  rewrite skipWhitespaceIfAny_toString.
  by rewrite tryReadIntText_toString.
Qed.

Lemma getSimpleTypeByName_decimal_no_comma (p : N) :
  p < 2 ^ 64 ->
  getSimpleTypeByName ("decimal(" ++ toString p ++ ")")
  = Throw CANNOT_PARSE_INPUT_ASSERTION_FAILED.
Proof.
  intros Hp.
  replace ("decimal(" ++ toString p ++ ")")
    with ("decimal(" ++ (toString p ++ "") ++ ")")
    by (by rewrite string_app_nil_r).
  rewrite getSimpleTypeByName_decimal.
  by rewrite readIntText_toString.
Qed.

End DecimalNames.

(** C2, as the code has it.  A name [decimal(p,s)] in which both numbers are
    present, with any whitespace before and after the comma, resolves to what
    the decimal factory builds for precision [p] and scale [s]; a name
    [decimal(p)], without a comma, is rejected by the check for the comma. *)
Theorem decimal_name_resolution {E : Collaborators} (p s : N) (ws1 ws2 : string) :
  p < 2 ^ 64 -> s < 2 ^ 64 ->
  is_whitespace ws1 = true -> is_whitespace ws2 = true ->
  getSimpleTypeByName
    ("decimal(" ++ toString p ++ ws1 ++ "," ++ ws2 ++ toString s ++ ")")
  = createDecimal p s
  /\ getSimpleTypeByName ("decimal(" ++ toString p ++ ")")
     = Throw CANNOT_PARSE_INPUT_ASSERTION_FAILED.
Proof.
  intros Hp Hs Hws1 Hws2. split.
  - by apply getSimpleTypeByName_decimal_pair.
  - by apply getSimpleTypeByName_decimal_no_comma.
Qed.

Lemma decimal_name_resolution_witness :
  @getSimpleTypeByName (Reference.collaborators []) "decimal(10 ,  2)"
  = Ok (TDecimal 10 2).
Proof.
  exact (proj1 (@decimal_name_resolution (Reference.collaborators [])
                  10 2 " " "  " eq_refl eq_refl eq_refl eq_refl)).
Defined.

(** C2, as stated, fails: [decimal(10)] carries no scale, and its resolution
    does not succeed with scale 0 although the decimal factory accepts
    precision 10 with scale 0. *)
Lemma decimal_without_scale_rejected :
  @createDecimal (Reference.collaborators []) 10 0 = Ok (TDecimal 10 0) /\
  @getSimpleTypeByName (Reference.collaborators []) "decimal(10)"
  = Throw CANNOT_PARSE_INPUT_ASSERTION_FAILED.
Proof. split; reflexivity. Qed.

(** With the comma present and the scale absent, the scale handed to the
    decimal factory is whatever the uninitialised local contains. *)
Example render_schema :
  Reference.render (Sample.schema_document Sample.schema_x_long)
  = "{" ++ Reference.quoted "type" ++ ":" ++ Reference.quoted "struct" ++ ","
    ++ Reference.quoted "fields" ++ ":[{"
    ++ Reference.quoted "name" ++ ":" ++ Reference.quoted "x" ++ ","
    ++ Reference.quoted "type" ++ ":" ++ Reference.quoted "long" ++ ","
    ++ Reference.quoted "nullable" ++ ":true,"
    ++ Reference.quoted "metadata" ++ ":{}}]}".
Proof. reflexivity. Qed.

Example getFieldType_array :
  @getFieldType (Reference.collaborators [])
    [("name", JString "xs");
     ("type", JObject [("type", JString "array");
                       ("elementType", JString "integer");
                       ("containsNull", JBool true)])]
    "type" false
  = Ok (TArray (TNullable TInt32)).
Proof. reflexivity. Qed.

Example getFieldType_map_of_struct :
  @getFieldType (Reference.collaborators [])
    [("type",
      JObject [("type", JString "map");
               ("keyType", JString "string");
               ("valueType",
                JObject [("type", JString "struct");
                         ("fields",
                          JArray [JObject [("name", JString "n");
                                           ("type", JString "long");
                                           ("required", JBool false)]])]);
               ("containsNull", JBool true)])]
    "type" true
  = Ok (TMap TString (TTuple [TInt64] ["n"])).
Proof. reflexivity. Qed.

(** The scenarios of a single commit, of an [add] followed by a [remove] in
    the next file, and of a column with a physical name. *)
Example single_commit :
  Sample.snapshot
    (Sample.store [[Sample.metaData Sample.schema_x_long; Sample.add "a.parquet" []]])
  = Some {| schema := [("x", TNullable TInt64)];
            data_files := ["lake/t/a.parquet"];
            partition_columns := ∅ |}.
Proof. vm_compute. reflexivity. Qed.

Example add_then_remove :
  data_files <$>
    Sample.snapshot (Sample.store [[Sample.add "a.parquet" []];
                                   [Sample.remove "a.parquet"]])
  = Some [].
Proof. vm_compute. reflexivity. Qed.

Example physical_column_name :
  schema <$>
    Sample.snapshot (Sample.store [[Sample.metaData Sample.schema_user_id]])
  = Some [("col-abc", TInt32)].
Proof. vm_compute. reflexivity. Qed.

Example decimal_with_empty_scale :
  @getSimpleTypeByName
    (Reference.with_uninitialized_scale (Reference.collaborators []) 7) "decimal(10,)"
  = Ok (TDecimal 10 7).
Proof. reflexivity. Qed.

(** ** Results *)

Lemma bind_Ok {A B} (r : Result A) (k : A -> Result B) (b : B) :
  r ≫= k = Ok b <-> exists a, r = Ok a /\ k a = Ok b.
Proof.
  destruct r as [a|e]; simpl; split.
  - intros Hk. by exists a.
  - by intros (a' & [= <-] & Hk).
  - discriminate.
  - by intros (a' & [=] & _).
Qed.

Lemma bind_Ok_l {A B} (r : Result A) (k : A -> Result B) (a : A) :
  r = Ok a -> r ≫= k = k a.
Proof. by intros ->. Qed.

Lemma bind_Throw_l {A B} (r : Result A) (k : A -> Result B) (e : ErrorCode) :
  r = Throw e -> r ≫= k = Throw e.
Proof. by intros ->. Qed.

Ltac inv_bind H :=
  repeat match type of H with
         | _ ≫= _ = Ok _ =>
             let a := fresh "a" in
             let Ha := fresh "Ha" in
             apply bind_Ok in H as (a & Ha & H)
         end.

(** ** Objects *)

Lemma get_has (object : Object) (key : string) :
  has object key = false -> get object key = JNull.
Proof.
  induction object as [|[k v] object IH]; [done|]. simpl.
  destruct (decide (k = key)); [done | exact IH].
Qed.

Lemma extract_Object_has (object members : Object) (key : string) :
  extract_Object (get object key) = Ok members -> has object key = true.
Proof.
  destruct (has object key) eqn:Hhas; [done|].
  by rewrite (get_has _ _ Hhas).
Qed.

(** ** The set of files *)

Section Files.
Context {E : Collaborators} (configuration : Configuration).

Lemma with_result_files_id (st : ParserState) (files : gset string) :
  files = result_files st -> with_result_files st files = st.
Proof. intros ->. by destruct st. Qed.

Lemma add_path_has (object : Object) (path : string) :
  add_path object = Ok path -> has object "add" = true.
Proof.
  unfold add_path. intros H. inv_bind H. by eapply extract_Object_has.
Qed.

Lemma remove_path_has (object : Object) (path : string) :
  remove_path object = Ok path -> has object "remove" = true.
Proof.
  unfold remove_path. intros H. inv_bind H. by eapply extract_Object_has.
Qed.

Lemma processRemove_spec (object : Object) (st : ParserState) :
  processRemove configuration object st =
  (path ← remove_path object;
   Ok (with_result_files st (result_files st ∖ {[ path_append (getPath configuration) path ]}))).
Proof.
  unfold processRemove, remove_path.
  destruct (extract_Object (get object "remove")) as [remove_object|e]; [|done].
  simpl. by destruct (getValue_String remove_object "path").
Qed.

Lemma processAdd_result_files (object : Object) (st st' : ParserState) :
  processAdd configuration object st = Ok st' ->
  exists path, add_path object = Ok path /\
    result_files st' = {[ path_append (getPath configuration) path ]} ∪ result_files st /\
    current_schema st' = current_schema st.
Proof.
  unfold processAdd, add_path. intros H.
  apply bind_Ok in H as (add_object & Hadd & H). rewrite Hadd. simpl.
  apply bind_Ok in H as (path & Hpath & H). exists path. split; [done|].
  simpl in H.
  destruct (current_partition_columns st !! path_filename path);
    [by injection H as <-|].
  apply bind_Ok in H as (partition_values & Hpv & H).
  case_bool_decide; [by injection H as <-|].
  apply bind_Ok in H as (columns & Hcolumns & H). by injection H as <-.
Qed.

Lemma processMetaData_result_files (object : Object) (st st' : ParserState) :
  processMetaData object st = Ok st' ->
  result_files st' = result_files st /\
  current_partition_columns st' = current_partition_columns st /\
  exists schema, readSchema object = Ok schema /\
    current_schema st' =
      (if bool_decide (current_schema st = []) then schema else current_schema st) /\
    (current_schema st <> [] -> schema = current_schema st).
Proof.
  unfold processMetaData. intros H.
  apply bind_Ok in H as (schema & Hschema & H).
  destruct (decide (current_schema st = [])) as [Hempty|Hne].
  - rewrite !bool_decide_eq_true_2 in * by done. injection H as <-.
    repeat split; try done. exists schema. repeat split; done.
  - rewrite (bool_decide_eq_false_2 (current_schema st = [])) in * by done.
    case_bool_decide as Hdiff; [discriminate|]. injection H as <-.
    repeat split; try done. exists schema.
    repeat split; try done;
      intros _; by destruct (decide (current_schema st = schema)).
Qed.

(** The first half of [processObject]: the [add] member when there is one,
    else the [remove] member. *)
Lemma processObject_files (object : Object) (st st' : ParserState) :
  processObject configuration object st = Ok st' ->
  exists st1,
    processAddOrRemove configuration object st = Ok st1 /\
    (if has object "metaData" then processMetaData object st1 else Ok st1) = Ok st'.
Proof. unfold processObject. intros H. by apply bind_Ok in H. Qed.

Lemma processObject_add_member (object : Object) (st st' : ParserState)
    (path : string) :
  add_path object = Ok path ->
  processObject configuration object st = Ok st' ->
  result_files st' = {[ path_append (getPath configuration) path ]} ∪ result_files st.
Proof.
  intros Hpath H. apply processObject_files in H as (st1 & H1 & H2).
  unfold processAddOrRemove in H1.
  rewrite (add_path_has _ _ Hpath) in H1.
  apply processAdd_result_files in H1 as (path' & Hpath' & Hfiles & _).
  assert (path' = path) as -> by congruence.
  destruct (has object "metaData").
  - apply processMetaData_result_files in H2 as (-> & _). exact Hfiles.
  - by injection H2 as <-.
Qed.

Lemma processObject_remove_member (object : Object) (st st' : ParserState)
    (path : string) :
  has object "add" = false ->
  remove_path object = Ok path ->
  processObject configuration object st = Ok st' ->
  result_files st' = result_files st ∖ {[ path_append (getPath configuration) path ]} /\
  current_partition_columns st' = current_partition_columns st.
Proof.
  intros Hadd Hpath H. apply processObject_files in H as (st1 & H1 & H2).
  unfold processAddOrRemove in H1.
  rewrite Hadd, (remove_path_has _ _ Hpath), processRemove_spec, Hpath in H1.
  injection H1 as <-.
  destruct (has object "metaData").
  - by apply processMetaData_result_files in H2 as (-> & -> & _).
  - by injection H2 as <-.
Qed.

Lemma processObject_remove_only (object : Object) (st : ParserState)
    (path : string) :
  has object "add" = false ->
  has object "metaData" = false ->
  remove_path object = Ok path ->
  processObject configuration object st =
  Ok (with_result_files st
        (result_files st ∖ {[ path_append (getPath configuration) path ]})).
Proof.
  intros Hadd Hmeta Hpath. unfold processObject, processAddOrRemove.
  rewrite Hadd, (remove_path_has _ _ Hpath), processRemove_spec, Hpath. simpl.
  by rewrite Hmeta.
Qed.

(** An [add] whose file already has a partition record, or whose
    [partitionValues] is empty, only inserts the path. *)
Lemma processAdd_plain (object : Object) (st : ParserState) (path : string) :
  add_path object = Ok path ->
  is_Some (current_partition_columns st !! path_filename path)
  \/ add_partition_values object = Ok [] ->
  processAdd configuration object st =
  Ok (with_result_files st
        ({[ path_append (getPath configuration) path ]} ∪ result_files st)).
Proof.
  unfold add_path, add_partition_values, processAdd. intros Hpath Hcase.
  destruct (extract_Object (get object "add")) as [add_object|e]; [|done].
  simpl in *. rewrite Hpath. simpl.
  destruct (current_partition_columns st !! path_filename path) eqn:Hrecord;
    [done|].
  destruct Hcase as [[? [=]]|Hvalues]. by rewrite Hvalues.
Qed.

Lemma processObject_add_plain (object : Object) (st : ParserState) (path : string) :
  add_path object = Ok path ->
  add_partition_values object = Ok [] ->
  has object "metaData" = false ->
  processObject configuration object st =
  Ok (with_result_files st
        ({[ path_append (getPath configuration) path ]} ∪ result_files st)).
Proof.
  intros Hpath Hvalues Hmeta. unfold processObject, processAddOrRemove.
  rewrite (add_path_has _ _ Hpath), (processAdd_plain _ _ path) by auto.
  simpl. by rewrite Hmeta.
Qed.

End Files.

(** C6.  A [remove] of a path that is not in the set of files leaves the
    state of the parser as it is: the branch itself returns the state it was
    given, so does the whole step for an object that carries nothing but the
    [remove] member, and whatever else the object carries, the set of files
    after the step is the set before it. *)
Theorem remove_of_absent_path_is_noop {E : Collaborators}
    (configuration : Configuration) (object : Object) (st : ParserState)
    (path : string) :
  has object "add" = false ->
  remove_path object = Ok path ->
  path_append (getPath configuration) path ∉ result_files st ->
  processRemove configuration object st = Ok st /\
  (has object "metaData" = false -> processObject configuration object st = Ok st) /\
  (forall st', processObject configuration object st = Ok st' ->
               result_files st' = result_files st).
Proof.
  intros Hadd Hpath Habsent.
  assert (Hsame : result_files st ∖ {[ path_append (getPath configuration) path ]}
                  = result_files st) by set_solver.
  repeat split.
  - rewrite processRemove_spec, Hpath. simpl. f_equal.
    by apply with_result_files_id.
  - intros Hmeta. rewrite (processObject_remove_only _ _ _ path) by done.
    f_equal. by apply with_result_files_id.
  - intros st' Hrun.
    by apply (processObject_remove_member _ _ _ _ path) in Hrun as [-> _].
Qed.

Lemma remove_of_absent_path_is_noop_witness :
  let st := with_result_files initial_state {[ "lake/t/b.parquet" ]} in
  @processObject Sample.environment Sample.configuration
    [("remove", JObject [("path", JString "a.parquet")])] st = Ok st.
Proof.
  intros st.
  refine (proj1 (proj2 (@remove_of_absent_path_is_noop Sample.environment
            Sample.configuration
            [("remove", JObject [("path", JString "a.parquet")])] st "a.parquet"
            eq_refl eq_refl _)) eq_refl).
  vm_compute. set_solver.
Defined.

(** C7.  After an [add] of a path, a [remove] of it and a second [add] of
    it, the path is in the set of files: whenever the three steps succeed the
    set is the initial one with the path added; and they do succeed, with no
    other change to the state, when the two [add]s carry no partition values
    and none of the objects carries [metaData]. *)
Theorem add_remove_add_reinstates {E : Collaborators}
    (configuration : Configuration) (o1 o2 o3 : Object) (st : ParserState)
    (path : string) :
  add_path o1 = Ok path ->
  has o2 "add" = false -> remove_path o2 = Ok path ->
  add_path o3 = Ok path ->
  let file := path_append (getPath configuration) path in
  (forall st',
      processDocuments configuration [JObject o1; JObject o2; JObject o3] st = Ok st' ->
      file ∈ result_files st' /\ result_files st' = {[ file ]} ∪ result_files st) /\
  (add_partition_values o1 = Ok [] -> add_partition_values o3 = Ok [] ->
   has o1 "metaData" = false -> has o2 "metaData" = false ->
   has o3 "metaData" = false ->
   processDocuments configuration [JObject o1; JObject o2; JObject o3] st
   = Ok (with_result_files st ({[ file ]} ∪ result_files st))).
Proof.
  intros H1 Hadd2 H2 H3 file. split.
  - intros st' H. simpl in H.
    apply bind_Ok in H as (st1 & Hst1 & H).
    apply bind_Ok in H as (st2 & Hst2 & H).
    apply bind_Ok in H as (st3 & Hst3 & H). injection H as <-.
    apply (processObject_add_member _ _ _ _ path) in Hst1; [|done].
    apply (processObject_remove_member _ _ _ _ path) in Hst2 as [Hst2 _]; [|done..].
    apply (processObject_add_member _ _ _ _ path) in Hst3; [|done].
    rewrite Hst3, Hst2, Hst1. subst file. clear.
    split; [set_solver|].
    apply set_eq. intros x.
    destruct (decide (x = path_append (getPath configuration) path)); set_solver.
  - intros Hv1 Hv3 Hm1 Hm2 Hm3. simpl.
    rewrite (processObject_add_plain _ _ _ path) by done. simpl.
    rewrite (processObject_remove_only _ _ _ path) by done. simpl.
    rewrite (processObject_add_plain _ _ _ path) by done. simpl.
    f_equal. unfold with_result_files. simpl. f_equal. subst file. clear.
    apply set_eq. intros x.
    destruct (decide (x = path_append (getPath configuration) path)); set_solver.
Qed.

Lemma add_remove_add_reinstates_witness :
  exists st',
    @processDocuments Sample.environment Sample.configuration
      [Sample.add "a.parquet" []; Sample.remove "a.parquet"; Sample.add "a.parquet" []]
      initial_state = Ok st' /\
    "lake/t/a.parquet" ∈ result_files st'.
Proof.
  pose proof (@add_remove_add_reinstates Sample.environment Sample.configuration
                (Sample.add_members "a.parquet" [])
                (Sample.remove_members "a.parquet")
                (Sample.add_members "a.parquet" [])
                initial_state "a.parquet"
                eq_refl eq_refl eq_refl eq_refl) as [Hin Hrun].
  eexists. split.
  - apply Hrun; reflexivity.
  - eapply Hin. apply Hrun; reflexivity.
Defined.

(** C10.  A [remove] changes nothing but the set of files: the branch
    returns the state it was given with the path erased from the set, and a
    whole step on an object with a [remove] member and no [add] member keeps
    the partition columns, and the schema too when the object has no
    [metaData] member.  The record of a removed file therefore stays: the log
    below adds a file with a partition value and then removes it, and the
    snapshot lists no file while it still holds the partition columns of
    [f.parquet]. *)
Theorem remove_keeps_schema_and_partition_columns :
  (forall (E : Collaborators) (configuration : Configuration) (object : Object)
          (st : ParserState) (path : string),
      has object "add" = false ->
      remove_path object = Ok path ->
      processRemove configuration object st
      = Ok {| result_files :=
                result_files st ∖ {[ path_append (getPath configuration) path ]};
              current_schema := current_schema st;
              current_partition_columns := current_partition_columns st |} /\
      forall st', processObject configuration object st = Ok st' ->
        result_files st'
        = result_files st ∖ {[ path_append (getPath configuration) path ]} /\
        current_partition_columns st' = current_partition_columns st /\
        (has object "metaData" = false -> current_schema st' = current_schema st)) /\
  exists snapshot,
    Sample.snapshot
      (Sample.store
         [[Sample.metaData Sample.schema_v_long;
           Sample.add "p/v=7/f.parquet" [("v", JString "7")]];
          [Sample.remove "p/v=7/f.parquet"]]) = Some snapshot /\
    data_files snapshot = [] /\
    partition_columns snapshot !! "f.parquet"
    = Some [{| name_and_type := ("v", TNullable TInt64); value := FInt64 7 |}].
Proof.
  split.
  - intros E configuration object st path Hadd Hpath. split.
    + by rewrite processRemove_spec, Hpath.
    + intros st' Hrun.
      destruct (processObject_remove_member _ _ _ _ path Hadd Hpath Hrun)
        as [Hfiles Hcolumns].
      repeat split; try done. intros Hmeta.
      rewrite (processObject_remove_only _ _ _ path) in Hrun by done.
      by injection Hrun as <-.
  - eexists. split; [vm_compute; reflexivity|]. split; reflexivity.
Qed.

Lemma remove_keeps_schema_and_partition_columns_witness :
  let st := {| result_files := {[ "lake/t/a.parquet" ]};
               current_schema := [("v", TInt64)];
               current_partition_columns := {[ "a.parquet" := [] ]} |} in
  @processRemove Sample.environment Sample.configuration
    (Sample.remove_members "a.parquet") st
  = Ok {| result_files :=
            result_files st ∖ {[ "lake/t/a.parquet" ]};
          current_schema := [("v", TInt64)];
          current_partition_columns := {[ "a.parquet" := [] ]} |}.
Proof.
  intros st.
  exact (proj1 (proj1 remove_keeps_schema_and_partition_columns
                  Sample.environment Sample.configuration
                  (Sample.remove_members "a.parquet") st "a.parquet"
                  eq_refl eq_refl)).
Defined.

(** C1, as the code has it.  In one decoded object the [add] member, when
    present, is applied, and so is the [metaData] member; the [remove] member
    is applied when the object has no [add] member, and is passed over when it
    has one: after a successful step on an object with an [add] member the set
    of files is the previous one with the added path, whether or not the
    object has a [remove] member too. *)
Theorem object_members_applied {E : Collaborators} (configuration : Configuration)
    (object : Object) (st st' : ParserState) :
  processObject configuration object st = Ok st' ->
  (has object "add" = true ->
   exists path, add_path object = Ok path /\
     result_files st' = {[ path_append (getPath configuration) path ]} ∪ result_files st) /\
  (has object "add" = false -> has object "remove" = true ->
   exists path, remove_path object = Ok path /\
     result_files st' = result_files st ∖ {[ path_append (getPath configuration) path ]}) /\
  (has object "add" = false -> has object "remove" = false ->
   result_files st' = result_files st) /\
  (has object "metaData" = true ->
   exists schema, readSchema object = Ok schema /\
     current_schema st' =
       if bool_decide (current_schema st = []) then schema else current_schema st) /\
  (has object "metaData" = false -> current_schema st' = current_schema st).
Proof.
  intros Hrun. apply processObject_files in Hrun as (st1 & H1 & H2).
  unfold processAddOrRemove in H1.
  assert (Hfiles : result_files st' = result_files st1).
  { destruct (has object "metaData").
    - by apply processMetaData_result_files in H2 as (-> & _).
    - by injection H2 as <-. }
  assert (Hschema : current_schema st1 = current_schema st).
  { destruct (has object "add").
    - by apply processAdd_result_files in H1 as (? & _ & _ & ->).
    - destruct (has object "remove"); [|by injection H1 as <-].
      rewrite processRemove_spec in H1.
      apply bind_Ok in H1 as (? & _ & H1). by injection H1 as <-. }
  rewrite Hfiles. repeat split.
  - intros Hadd. rewrite Hadd in H1.
    apply processAdd_result_files in H1 as (path & Hpath & Hst1 & _). by exists path.
  - intros Hadd Hremove. rewrite Hadd, Hremove, processRemove_spec in H1.
    apply bind_Ok in H1 as (path & Hpath & H1). injection H1 as <-. by exists path.
  - intros Hadd Hremove. rewrite Hadd, Hremove in H1. by injection H1 as <-.
  - intros Hmeta. rewrite Hmeta in H2.
    apply processMetaData_result_files in H2 as (_ & _ & schema & Hread & Hnew & _).
    exists schema. by rewrite <- Hschema.
  - intros Hmeta. rewrite Hmeta in H2. injection H2 as <-. exact Hschema.
Qed.

Lemma object_members_applied_witness :
  let st := with_result_files initial_state {[ "lake/t/b.parquet" ]} in
  exists st',
    @processObject Sample.environment Sample.configuration
      (Sample.add_and_remove_members "a.parquet" "b.parquet") st = Ok st' /\
    result_files st' = {[ "lake/t/a.parquet" ]} ∪ {[ "lake/t/b.parquet" ]}.
Proof.
  intros st. eexists. split; [reflexivity|].
  destruct (proj1 (@object_members_applied Sample.environment Sample.configuration
                     (Sample.add_and_remove_members "a.parquet" "b.parquet") st _
                     eq_refl) eq_refl) as (path & Hpath & Hfiles).
  injection Hpath as <-. exact Hfiles.
Defined.

(** C1, as stated, fails for an object with both an [add] and a [remove]
    member: after [b.parquet] has been added, an object that adds [a.parquet]
    and removes [b.parquet] leaves [b.parquet] among the files of the
    snapshot. *)
Lemma remove_beside_add_not_applied :
  data_files <$>
    Sample.snapshot
      (Sample.store [[Sample.add "b.parquet" []];
                     [Sample.add_and_remove "a.parquet" "b.parquet"]])
  = Some ["lake/t/a.parquet"; "lake/t/b.parquet"].
Proof. vm_compute. reflexivity. Qed.

(** ** The rows of a checkpoint *)

Section Checkpoint.
Context {E : Collaborators} (configuration : Configuration)
        {helper : MetadataReadHelper}.

Local Open Scope list_scope.

Lemma readLastCheckpointIfExists_unfold (trace : list Event) :
  readLastCheckpointIfExists configuration trace =
  let last_checkpoint_file := metadata_path configuration "_last_checkpoint" in
  if exists_ last_checkpoint_file configuration then
    (match readDocuments last_checkpoint_file configuration with
     | Ok (document :: _) =>
         object ← extract_Object document; getUInt (get object "version")
     | Ok [] => Throw JSON_EXCEPTION
     | Throw e => Throw e
     end,
     trace ++ [ExistsCall last_checkpoint_file; ReadCall last_checkpoint_file])
  else (Ok 0, trace ++ [ExistsCall last_checkpoint_file]).
Proof.
  unfold readLastCheckpointIfExists. cbv zeta.
  set (last_checkpoint_file := metadata_path configuration "_last_checkpoint").
  unfold mbind, IO_bind, io_exists, io_readDocuments, io_lift, mret, IO_ret.
  destruct (exists_ last_checkpoint_file configuration); simpl; [|done].
  rewrite <- app_assoc. simpl.
  by destruct (readDocuments last_checkpoint_file configuration) as [[|? ?]|].
Qed.

Lemma getCheckpointIfExists_unfold (result : gset string) (trace : list Event) :
  getCheckpointIfExists configuration result trace =
  match readLastCheckpointIfExists configuration trace with
  | (Ok version, trace1) =>
      if bool_decide (version = 0) then (Ok (0, result), trace1)
      else
        let checkpoint_path :=
          metadata_path configuration (withPadding version ++ ".checkpoint.parquet") in
        (match readCheckpoint checkpoint_path configuration with
         | Ok res_columns =>
             if bool_decide (length res_columns <> 2%nat) then Throw INCORRECT_DATA
             else
               files ← insertCheckpointPaths configuration
                         (default [] (head res_columns)) result;
               Ok (version, files)
         | Throw e => Throw e
         end, trace1 ++ [ReadCall checkpoint_path])
  | (Throw e, trace1) => (Throw e, trace1)
  end.
Proof.
  unfold getCheckpointIfExists. unfold mbind at 1. unfold IO_bind.
  destruct (readLastCheckpointIfExists configuration trace) as [[version|e] trace1];
    [|done].
  case_bool_decide; [done|]. cbv zeta.
  unfold mbind, IO_bind, io_readCheckpoint, io_lift, mret, IO_ret. simpl.
  destruct (readCheckpoint _ configuration) as [res_columns|e]; [|done].
  case_bool_decide; [done|].
  by destruct (insertCheckpointPaths _ _ _).
Qed.

Lemma processMetadataFiles_unfold (fuel : nat) (trace : list Event) :
  processMetadataFiles configuration fuel trace =
  match getCheckpointIfExists configuration ∅ trace with
  | (Ok (version, files), trace1) =>
      let st := with_result_files initial_state files in
      if bool_decide (version = 0) then
        match processKeys configuration
                (listFiles configuration deltalake_metadata_directory
                   metadata_file_suffix) st
                (trace1 ++ [ListFilesCall deltalake_metadata_directory
                              metadata_file_suffix]) with
        | (Ok st', trace2) => (Ok (Some (makeMetadata st')), trace2)
        | (Throw e, trace2) => (Throw e, trace2)
        end
      else
        match processVersions configuration fuel version st trace1 with
        | (Ok (Some (_, st')), trace2) => (Ok (Some (makeMetadata st')), trace2)
        | (Ok None, trace2) => (Ok None, trace2)
        | (Throw e, trace2) => (Throw e, trace2)
        end
  | (Throw e, trace1) => (Throw e, trace1)
  end.
Proof.
  unfold processMetadataFiles. unfold mbind at 1. unfold IO_bind.
  destruct (getCheckpointIfExists configuration ∅ trace)
    as [[[version files]|e] trace1]; [|done].
  cbv zeta. case_bool_decide; simpl.
  - unfold mbind at 1. unfold IO_bind, io_listFiles.
    unfold mbind at 1. unfold IO_bind.
    by destruct (processKeys _ _ _ _) as [[st'|e] trace2].
  - unfold mbind at 1. unfold IO_bind.
    by destruct (processVersions _ _ _ _ _) as [[[[? st']|]|e] trace2].
Qed.

End Checkpoint.

(** The loop over the rows, lines 546-555, as one equation. *)
Lemma insertCheckpointPaths_spec (configuration : Configuration)
    (path_column : list string) (result : gset string) :
  let emitted := map (path_append (getPath configuration))
                     (filter (fun filename => filename <> "") path_column) in
  insertCheckpointPaths configuration path_column result =
  if bool_decide (NoDup emitted /\ Forall (fun file => file ∉ result) emitted)
  then Ok (list_to_set emitted ∪ result)
  else Throw INCORRECT_DATA.
Proof.
  revert result.
  induction path_column as [|filename rest IH]; intros result emitted.
  - subst emitted. simpl. f_equal. set_solver.
  - subst emitted. cbn [insertCheckpointPaths]. rewrite filter_cons.
    destruct (decide (filename <> "")) as [Hne|Heq].
    + rewrite bool_decide_eq_false_2 by done. cbn [map].
      set (file := path_append (getPath configuration) filename).
      set (others := map (path_append (getPath configuration))
                         (filter (fun filename => filename <> "") rest)).
      destruct (decide (file ∈ result)) as [Hin|Hnotin].
      * rewrite bool_decide_eq_true_2 by done.
        rewrite bool_decide_eq_false_2; [done|].
        intros [_ Hall]. by inversion Hall.
      * rewrite (bool_decide_eq_false_2 (file ∈ result)) by done.
        rewrite IH. fold others.
        destruct (decide (NoDup others /\
                          Forall (fun f => f ∉ {[file]} ∪ result) others))
          as [[Hnodup Hall]|Hbad].
        -- rewrite !bool_decide_eq_true_2.
           ++ f_equal. set_solver.
           ++ split.
              ** constructor; [|done]. intros Hin.
                 rewrite Forall_forall in Hall. specialize (Hall _ Hin). set_solver.
              ** constructor; [done|].
                 eapply Forall_impl; [exact Hall|]. set_solver.
           ++ done.
        -- rewrite !bool_decide_eq_false_2; [done| |done].
           intros [Hnodup Hall]. apply Hbad.
           inversion Hnodup as [|? ? Hfresh Hnodup']; subst.
           inversion Hall as [|? ? Hfile Hall']; subst.
           split; [done|].
           rewrite Forall_forall in Hall' |- *. intros f Hf.
           specialize (Hall' _ Hf).
           assert (f <> file) by (intros ->; done). set_solver.
    + assert (filename = "") as -> by (by destruct (decide (filename = ""))).
      rewrite bool_decide_eq_true_2 by done. apply IH.
Qed.

(** C5.  While [_last_checkpoint] records a version other than 0, the
    checkpoint file of that version is decoded and the loop of lines 546-555
    runs over the paths of its first column, the column [add]: it passes over
    the rows whose path is empty and inserts the path of every other row,
    joined to the root ([fs::path(root) / filename]), into the set of files,
    and it raises INCORRECT_DATA as soon as such a path is already in the
    set.  So the decoding succeeds exactly when the paths of the non-empty
    rows are pairwise distinct and none of them was in the set, and the set
    is then the initial one with all of them added.  The parse starts the
    decoding with the empty set: it fails with INCORRECT_DATA when two rows
    give the same path, before any log file is looked for, and otherwise the
    scan of the versions starts from the set of the paths of the rows. *)
Theorem checkpoint_rows_inserted_once {E : Collaborators}
    (configuration : Configuration) {helper : MetadataReadHelper} (fuel : nat)
    (version : N) (path_column other_column : list string)
    (result : gset string) (trace : list Event) :
  fst (readLastCheckpointIfExists configuration trace) = Ok version ->
  version <> 0 ->
  readCheckpoint
    (metadata_path configuration (withPadding version ++ ".checkpoint.parquet"))
    configuration
  = Ok [path_column; other_column] ->
  let emitted := map (path_append (getPath configuration))
                     (filter (fun filename => filename <> "") path_column) in
  let loaded :=
    (snd (readLastCheckpointIfExists configuration trace) ++
     [ReadCall (metadata_path configuration
                  (withPadding version ++ ".checkpoint.parquet"))])%list in
  getCheckpointIfExists configuration result trace =
    (if bool_decide (NoDup emitted /\ Forall (fun file => file ∉ result) emitted)
     then Ok (version, list_to_set emitted ∪ result)
     else Throw INCORRECT_DATA, loaded) /\
  (~ NoDup emitted ->
   processMetadataFiles configuration fuel trace = (Throw INCORRECT_DATA, loaded)) /\
  (NoDup emitted ->
   processMetadataFiles configuration fuel trace =
   match processVersions configuration fuel version
           (with_result_files initial_state (list_to_set emitted)) loaded with
   | (Ok (Some (_, st')), trace2) => (Ok (Some (makeMetadata st')), trace2)
   | (Ok None, trace2) => (Ok None, trace2)
   | (Throw e, trace2) => (Throw e, trace2)
   end).
Proof.
  intros Hversion Hne Hcolumns emitted loaded.
  assert (Hload : forall files,
    getCheckpointIfExists configuration files trace =
    (if bool_decide (NoDup emitted /\ Forall (fun file => file ∉ files) emitted)
     then Ok (version, list_to_set emitted ∪ files)
     else Throw INCORRECT_DATA, loaded)).
  { intros files. rewrite getCheckpointIfExists_unfold. subst loaded.
    destruct (readLastCheckpointIfExists configuration trace) as [r trace1].
    simpl in Hversion. subst r. simpl.
    rewrite bool_decide_eq_false_2 by done. cbv zeta. rewrite Hcolumns.
    rewrite bool_decide_eq_false_2 by (simpl; lia). simpl.
    rewrite (insertCheckpointPaths_spec configuration path_column files).
    cbv zeta. fold emitted. by case_bool_decide. }
  split; [apply Hload|].
  assert (Hfresh : Forall (fun file => file ∉ (∅ : gset string)) emitted).
  { apply Forall_forall. intros file _. apply not_elem_of_empty. }
  split; intros Hnodup; rewrite processMetadataFiles_unfold, Hload.
  - rewrite bool_decide_eq_false_2; [done|]. by intros [? _].
  - rewrite bool_decide_eq_true_2 by done. cbv zeta.
    rewrite bool_decide_eq_false_2 by done.
    by rewrite (right_id_L ∅ (∪)).
Qed.

Lemma checkpoint_rows_inserted_once_witness :
  @processMetadataFiles Sample.environment Sample.configuration
    (Reference.helper
       (Sample.store_with_checkpoint 3 ["b.parquet"; ""; "b.parquet"]
          [(4, [Sample.add "a.parquet" []])]))
    5 []
  = (Throw INCORRECT_DATA, checkpoint_events Sample.configuration 3).
Proof.
  refine (proj1 (proj2 (@checkpoint_rows_inserted_once Sample.environment
                          Sample.configuration
                          (Reference.helper
                             (Sample.store_with_checkpoint 3
                                ["b.parquet"; ""; "b.parquet"]
                                [(4, [Sample.add "a.parquet" []])]))
                          5 3 ["b.parquet"; ""; "b.parquet"] [""; ""; ""] ∅ []
                          _ _ _)) _).
  - vm_compute. reflexivity.
  - discriminate.
  - vm_compute. reflexivity.
  - intros Hnodup. vm_compute in Hnodup.
    apply NoDup_cons_1_1 in Hnodup. apply Hnodup. by left.
Defined.

Example checkpoint_rows :
  insertCheckpointPaths Sample.configuration ["b.parquet"; ""; "c.parquet"] ∅
  = Ok {[ "lake/t/b.parquet"; "lake/t/c.parquet" ]} /\
  insertCheckpointPaths Sample.configuration
    ["b.parquet"; "c.parquet"; "b.parquet"] ∅
  = Throw INCORRECT_DATA.
Proof. split; vm_compute; reflexivity. Qed.

(** ** Partition columns *)

Section PartitionColumns.
Context {E : Collaborators} (configuration : Configuration).





End PartitionColumns.




(** ** The schema of a log *)

Section Schema.
Context {E : Collaborators} (configuration : Configuration).

Lemma first_nonempty_nil (schemas : list NamesAndTypesList) :
  first_nonempty ([] :: schemas) = first_nonempty schemas.
Proof. unfold first_nonempty. by rewrite filter_cons_False by (by intros []). Qed.

Lemma first_nonempty_cons (schema : NamesAndTypesList)
    (schemas : list NamesAndTypesList) :
  schema <> [] -> first_nonempty (schema :: schemas) = schema.
Proof. intros Hne. unfold first_nonempty. by rewrite filter_cons_True. Qed.

Lemma processAddOrRemove_schema (object : Object) (st st1 : ParserState) :
  processAddOrRemove configuration object st = Ok st1 ->
  current_schema st1 = current_schema st.
Proof.
  unfold processAddOrRemove. intros H.
  destruct (has object "add").
  - by apply processAdd_result_files in H as (? & _ & _ & ->).
  - destruct (has object "remove"); [|by injection H as <-].
    rewrite processRemove_spec in H.
    apply bind_Ok in H as (? & _ & H). by injection H as <-.
Qed.

Lemma processObject_conflict (object : Object) (st st1 : ParserState)
    (schema : NamesAndTypesList) :
  processAddOrRemove configuration object st = Ok st1 ->
  has object "metaData" = true ->
  readSchema object = Ok schema ->
  current_schema st <> [] ->
  schema <> current_schema st ->
  processObject configuration object st = Throw NOT_IMPLEMENTED.
Proof.
  intros Hfirst Hmeta Hread Hnonempty Hdiff.
  unfold processObject. rewrite Hfirst. simpl. rewrite Hmeta.
  unfold processMetaData. rewrite Hread. simpl.
  rewrite (processAddOrRemove_schema _ _ _ Hfirst).
  rewrite bool_decide_eq_false_2 by done.
  by rewrite bool_decide_eq_true_2 by congruence.
Qed.

Lemma processDocuments_app (documents1 documents2 : list json) :
  forall st,
  processDocuments configuration (documents1 ++ documents2)%list st =
  (st1 ← processDocuments configuration documents1 st;
   processDocuments configuration documents2 st1).
Proof.
  induction documents1 as [|document rest IH]; intros st; [done|]. simpl.
  destruct (extract_Object document) as [object|e]; [|done]. simpl.
  destruct (processObject configuration object st) as [st1|e]; [|done]. simpl.
  apply IH.
Qed.

Lemma processFiles_concat (files : list (list json)) :
  forall st,
  processFiles configuration files st
  = processDocuments configuration (concat files) st.
Proof.
  induction files as [|documents rest IH]; intros st; [done|]. simpl.
  rewrite processDocuments_app.
  destruct (processDocuments configuration documents st); [|done]. apply IH.
Qed.

(** One step: the schema afterwards, and what the document showed. *)
Lemma processObject_schema (object : Object) (st st' : ParserState) :
  processObject configuration object st = Ok st' ->
  match observed_schema (JObject object) with
  | None => current_schema st' = current_schema st
  | Some schema =>
      current_schema st' =
        (if bool_decide (current_schema st = []) then schema else current_schema st)
      /\ (current_schema st <> [] -> schema = current_schema st)
  end.
Proof.
  intros H. apply processObject_files in H as (st1 & H1 & H2).
  apply processAddOrRemove_schema in H1. simpl.
  destruct (has object "metaData").
  - apply processMetaData_result_files in H2
      as (_ & _ & schema & -> & Hnew & Hsame).
    by rewrite H1 in Hnew, Hsame.
  - by injection H2 as <-.
Qed.

Lemma processDocuments_schema (documents : list json) :
  forall st st',
  processDocuments configuration documents st = Ok st' ->
  current_schema st' = first_nonempty (current_schema st :: observed_schemas documents)
  /\ Forall (fun schema => schema = [] \/ schema = current_schema st')
            (observed_schemas documents).
Proof.
  induction documents as [|document rest IH]; intros st st' H; simpl in H.
  - injection H as <-. split; [|constructor].
    destruct (decide (current_schema st = [])) as [->|Hne]; [done|].
    by rewrite first_nonempty_cons.
  - apply bind_Ok in H as (object & Hobject & H).
    apply bind_Ok in H as (st1 & Hstep & H).
    destruct document; try discriminate. injection Hobject as ->.
    apply processObject_schema in Hstep.
    apply IH in H as [Hfinal Hall].
    unfold observed_schemas in *. cbn [omap list_omap].
    fold (omap observed_schema rest).
    destruct (observed_schema (JObject object)) as [schema|].
    + destruct Hstep as [Hnew Hsame].
      destruct (decide (current_schema st = [])) as [Hempty|Hne].
      * rewrite bool_decide_eq_true_2 in Hnew by done.
        rewrite Hempty, first_nonempty_nil, <- Hnew. split; [done|].
        constructor; [|done].
        destruct (decide (schema = [])) as [->|Hschema]; [by left|right].
        by rewrite Hfinal, Hnew, first_nonempty_cons.
      * rewrite bool_decide_eq_false_2 in Hnew by done.
        assert (Hst' : current_schema st' = current_schema st).
        { by rewrite Hfinal, Hnew, first_nonempty_cons. }
        split; [by rewrite first_nonempty_cons|].
        constructor; [|done]. right. by rewrite Hst', Hsame.
    + rewrite Hstep in Hfinal. by split.
Qed.

Lemma processObject_unpartitioned (schema : NamesAndTypesList) (object : Object)
    (st : ParserState) :
  unpartitioned schema (JObject object) ->
  current_schema st = [] \/ current_schema st = schema ->
  exists st', processObject configuration object st = Ok st' /\
    (current_schema st' = [] \/ current_schema st' = schema).
Proof.
  intros (object' & [= <-] & Hadd & Hremove & Hmeta) Hst.
  assert (exists st1, processAddOrRemove configuration object st = Ok st1)
    as [st1 Hst1].
  { unfold processAddOrRemove.
    destruct (has object "add").
    - destruct Hadd as (path & Hpath & Hvalues); [done|].
      rewrite (processAdd_plain _ _ _ path) by auto. by eexists.
    - destruct (has object "remove"); [|by eexists].
      destruct Hremove as (path & Hpath); [done..|].
      rewrite processRemove_spec, Hpath. by eexists. }
  pose proof (processAddOrRemove_schema _ _ _ Hst1) as Hschema.
  unfold processObject. rewrite Hst1. simpl.
  destruct (has object "metaData").
  - unfold processMetaData. rewrite Hmeta by done. simpl. rewrite Hschema.
    destruct Hst as [Hempty|Hsame].
    + rewrite bool_decide_eq_true_2 by done. eexists. split; [done|]. by right.
    + destruct (decide (current_schema st = [])) as [Hempty|Hne].
      * rewrite bool_decide_eq_true_2 by done. eexists. split; [done|]. by right.
      * rewrite bool_decide_eq_false_2 by done.
        rewrite bool_decide_eq_false_2 by (intros Hne'; by apply Hne').
        eexists. split; [done|]. right. congruence.
  - eexists. split; [done|]. by rewrite Hschema.
Qed.

Lemma processDocuments_unpartitioned (schema : NamesAndTypesList)
    (documents : list json) :
  Forall (unpartitioned schema) documents ->
  forall st, current_schema st = [] \/ current_schema st = schema ->
  exists st', processDocuments configuration documents st = Ok st'.
Proof.
  induction 1 as [|document rest Hdocument _ IH]; intros st Hst; [by eexists|].
  destruct Hdocument as (object & -> & Hobject). simpl.
  destruct (processObject_unpartitioned schema object st) as (st1 & -> & Hst1);
    [by exists object | done |].
  simpl. by apply IH.
Qed.

Lemma observed_schemas_unpartitioned (schema : NamesAndTypesList)
    (documents : list json) :
  Forall (unpartitioned schema) documents ->
  Forall (fun observed => observed = schema) (observed_schemas documents).
Proof.
  induction 1 as [|document rest Hdocument _ IH]; [constructor|].
  unfold observed_schemas in *. cbn [omap list_omap].
  fold (omap observed_schema rest).
  destruct Hdocument as (object & -> & _ & _ & Hmeta). simpl.
  destruct (has object "metaData"); [|done].
  rewrite Hmeta by done. by constructor.
Qed.

End Schema.

(** C3, as the code has it.  [documents] are the documents of the log in the
    order in which they are processed (the documents of its files, one file
    after the other: [processFiles_concat]), and the schemas it shows are
    those of its [metaData] members.
    - When a [metaData] member is reached whose schema differs from the
      schema adopted so far, and that one is not empty, the parse fails with
      NOT_IMPLEMENTED.
    - An empty schema adopted so far is replaced without any check.  So when
      the parse of a log succeeds from the empty schema, the schema of the
      snapshot is the first non-empty schema the log shows (the empty schema
      if there is none), and every schema the log shows is empty or equal to
      it; in particular, if all the schemas shown are equal, the schema of
      the snapshot is that schema.
    - The log of a table without partitions whose [metaData] members all
      carry the same schema is parsed with success, and the schema of the
      snapshot is that schema. *)
Theorem schema_conflict_detection {E : Collaborators} (configuration : Configuration) :
  (forall (before after : list json) (object : Object) (st st1 st2 : ParserState)
          (schema : NamesAndTypesList),
      processDocuments configuration before st = Ok st1 ->
      processAddOrRemove configuration object st1 = Ok st2 ->
      has object "metaData" = true ->
      readSchema object = Ok schema ->
      current_schema st1 <> [] ->
      schema <> current_schema st1 ->
      processDocuments configuration (before ++ JObject object :: after)%list st
      = Throw NOT_IMPLEMENTED) /\
  (forall (documents : list json) (st st' : ParserState),
      current_schema st = [] ->
      processDocuments configuration documents st = Ok st' ->
      current_schema st' = first_nonempty (observed_schemas documents) /\
      Forall (fun schema => schema = [] \/ schema = current_schema st')
             (observed_schemas documents) /\
      (forall schema, observed_schemas documents <> [] ->
         Forall (fun observed => observed = schema) (observed_schemas documents) ->
         current_schema st' = schema)) /\
  (forall (documents : list json) (st : ParserState) (schema : NamesAndTypesList),
      current_schema st = [] ->
      Forall (unpartitioned schema) documents ->
      observed_schemas documents <> [] ->
      exists st', processDocuments configuration documents st = Ok st' /\
                  current_schema st' = schema).
Proof.
  assert (Hequal : forall (documents : list json) (st st' : ParserState) schema,
             current_schema st = [] ->
             processDocuments configuration documents st = Ok st' ->
             observed_schemas documents <> [] ->
             Forall (fun observed => observed = schema) (observed_schemas documents) ->
             current_schema st' = schema).
  { intros documents st st' schema Hempty Hrun Hsome Hall.
    apply processDocuments_schema in Hrun as [Hfinal _].
    rewrite Hempty, first_nonempty_nil in Hfinal. rewrite Hfinal.
    destruct (observed_schemas documents) as [|first rest]; [done|].
    inversion Hall as [|? ? Hfirst Hrest]. subst first.
    destruct (decide (schema = [])) as [->|Hne]; [|by apply first_nonempty_cons].
    unfold first_nonempty. rewrite filter_cons_False by (by intros []).
    clear -Hrest. induction Hrest as [|? ? -> _ IH]; [done|].
    by rewrite filter_cons_False by (by intros []). }
  split; [|split].
  - intros before after object st st1 st2 schema Hbefore Hfirst Hmeta Hread Hne Hdiff.
    rewrite processDocuments_app, Hbefore. simpl.
    by rewrite (processObject_conflict _ _ _ st2 schema).
  - intros documents st st' Hempty Hrun.
    pose proof (processDocuments_schema _ _ _ _ Hrun) as [Hfinal Hall].
    rewrite Hempty, first_nonempty_nil in Hfinal.
    split; [done|]. split; [done|].
    intros schema. by eapply Hequal.
  - intros documents st schema Hempty Hdocuments Hsome.
    destruct (processDocuments_unpartitioned configuration schema documents
                Hdocuments st) as [st' Hrun]; [by left|].
    exists st'. split; [done|].
    eapply Hequal; eauto using observed_schemas_unpartitioned.
Qed.

Lemma schema_conflict_detection_witness :
  @processDocuments Sample.environment Sample.configuration
    [Sample.metaData Sample.schema_x_long; Sample.add "a.parquet" [];
     Sample.metaData Sample.schema_x_string; Sample.add "b.parquet" []]
    initial_state
  = Throw NOT_IMPLEMENTED.
Proof.
  refine (proj1 (@schema_conflict_detection Sample.environment Sample.configuration)
            [Sample.metaData Sample.schema_x_long; Sample.add "a.parquet" []]
            [Sample.add "b.parquet" []]
            (Sample.metaData_members Sample.schema_x_string)
            initial_state _ _ [("x", TNullable TString)] _ _ _ _ _ _).
  - vm_compute. reflexivity.
  - reflexivity.
  - reflexivity.
  - vm_compute. reflexivity.
  - discriminate.
  - discriminate.
Defined.

(** C3, as stated, fails: the log below shows two distinct schemas, the
    empty one and then [x : long], and its parse succeeds, with the second
    as the schema of the snapshot. *)
Lemma empty_schema_then_other_schema_accepted :
  @observed_schemas Sample.environment
    [Sample.metaData Sample.schema_empty; Sample.metaData Sample.schema_x_long]
  = [ []; [("x", TNullable TInt64)] ] /\
  schema <$>
    Sample.snapshot (Sample.store [[Sample.metaData Sample.schema_empty];
                                   [Sample.metaData Sample.schema_x_long]])
  = Some [("x", TNullable TInt64)].
Proof. split; vm_compute; reflexivity. Qed.

(** ** The scan of the versions after a checkpoint *)

Section Scan.
Context {E : Collaborators} (configuration : Configuration)
        {helper : MetadataReadHelper}.

Local Open Scope list_scope.

Lemma processVersions_S (fuel : nat) (current_version : N) (st : ParserState)
    (trace : list Event) :
  processVersions configuration (S fuel) current_version st trace =
  let version := wrap64 (current_version + 1) in
  let file_path := metadata_path configuration (log_file_name version) in
  if exists_ file_path configuration then
    match readDocuments file_path configuration with
    | Ok documents =>
        match processDocuments configuration documents st with
        | Ok st' =>
            processVersions configuration fuel version st'
              (trace ++ [ExistsCall file_path; ReadCall file_path])
        | Throw e => (Throw e, trace ++ [ExistsCall file_path; ReadCall file_path])
        end
    | Throw e => (Throw e, trace ++ [ExistsCall file_path; ReadCall file_path])
    end
  else (Ok (Some (version, st)), trace ++ [ExistsCall file_path]).
Proof.
  cbn [processVersions]. unfold log_file_name.
  set (file_path := metadata_path configuration _).
  unfold mbind, IO_bind, io_exists, processMetadataFile, mbind, IO_bind,
    io_readDocuments, io_lift, mret, IO_ret.
  destruct (exists_ file_path configuration); simpl; [|done].
  rewrite <- app_assoc. simpl.
  destruct (readDocuments file_path configuration) as [documents|e]; [|done].
  by destruct (processDocuments configuration documents st).
Qed.

Lemma wrap64_small (n : N) : n < 2 ^ 64 -> wrap64 n = n.
Proof. intros Hn. unfold wrap64, size_t_modulus. by apply N.mod_small. Qed.

(** Whatever happens, the calls made by the scan are an initial part of
    the expected ones. *)
Lemma processVersions_trace (fuel : nat) :
  forall (present : nat) (version : N) (st : ParserState) (trace : list Event),
  version + N.of_nat present + 1 < 2 ^ 64 ->
  (forall i, (i < present)%nat ->
     exists_ (metadata_path configuration (log_file_name (version + 1 + N.of_nat i)))
             configuration = true) ->
  exists_ (metadata_path configuration
             (log_file_name (version + N.of_nat present + 1))) configuration = false ->
  exists events,
    snd (processVersions configuration fuel version st trace) = trace ++ events /\
    events `prefix_of` scan_events configuration version present.
Proof.
  induction fuel as [|fuel IH]; intros present version st trace Hrange Hpresent Habsent.
  - exists []. split; [by rewrite app_nil_r | apply prefix_nil].
  - rewrite processVersions_S. cbv zeta.
    rewrite wrap64_small by lia.
    destruct present as [|present].
    + rewrite N.add_0_r in Habsent. rewrite Habsent.
      by exists [ExistsCall (metadata_path configuration (log_file_name (version + 1)))].
    + pose proof (Hpresent O ltac:(lia)) as Hfirst.
      rewrite N.add_0_r in Hfirst. rewrite Hfirst. cbn [scan_events].
      set (file_path := metadata_path configuration (log_file_name (version + 1))).
      assert (Hstop : [ExistsCall file_path; ReadCall file_path]
                `prefix_of` ExistsCall file_path :: ReadCall file_path
                             :: scan_events configuration (version + 1) present).
      { by exists (scan_events configuration (version + 1) present). }
      destruct (readDocuments file_path configuration) as [documents|e];
        [|by eexists].
      destruct (processDocuments configuration documents st) as [st'|e];
        [|by eexists].
      destruct (IH present (version + 1) st'
                  (trace ++ [ExistsCall file_path; ReadCall file_path]))
        as (events & Hevents & Hprefix).
      * lia.
      * intros i Hi. specialize (Hpresent (S i) ltac:(lia)).
        by replace (version + 1 + 1 + N.of_nat i)
          with (version + 1 + N.of_nat (S i)) by lia.
      * by replace (version + 1 + N.of_nat present + 1)
          with (version + N.of_nat (S present) + 1) by lia.
      * exists (ExistsCall file_path :: ReadCall file_path :: events).
        split; [by rewrite Hevents, <- app_assoc|].
        by do 2 apply prefix_cons.
Qed.

(** When every file is read and processed without error, the scan makes
    all the expected calls and ends at the first absent version. *)
Lemma processVersions_complete (contents : list (list json)) :
  forall (fuel : nat) (version : N) (st st' : ParserState) (trace : list Event),
  version + N.of_nat (length contents) + 1 < 2 ^ 64 ->
  (forall i documents, contents !! i = Some documents ->
     let file_path :=
       metadata_path configuration (log_file_name (version + 1 + N.of_nat i)) in
     exists_ file_path configuration = true /\
     readDocuments file_path configuration = Ok documents) ->
  exists_ (metadata_path configuration
             (log_file_name (version + N.of_nat (length contents) + 1)))
          configuration = false ->
  (length contents < fuel)%nat ->
  processFiles configuration contents st = Ok st' ->
  processVersions configuration fuel version st trace =
  (Ok (Some (version + N.of_nat (length contents) + 1, st')),
   trace ++ scan_events configuration version (length contents)).
Proof.
  induction contents as [|documents rest IH];
    intros fuel version st st' trace Hrange Hfiles Habsent Hfuel Hrun;
    (destruct fuel as [|fuel]; [simpl in Hfuel; lia|]);
    rewrite processVersions_S; cbv zeta; rewrite wrap64_small by lia.
  - simpl in *. rewrite N.add_0_r in Habsent. rewrite Habsent.
    injection Hrun as <-. by rewrite N.add_0_r.
  - destruct (Hfiles O documents eq_refl) as [Hexists Hread].
    cbv zeta in Hexists, Hread. rewrite N.add_0_r in Hexists, Hread.
    rewrite Hexists, Hread.
    simpl in Hrun. apply bind_Ok in Hrun as (st1 & Hst1 & Hrun). rewrite Hst1.
    rewrite (IH fuel (version + 1) st1 st').
    + cbn [length scan_events]. rewrite <- app_assoc. simpl.
      replace (version + 1 + N.of_nat (length rest) + 1)
        with (version + N.of_nat (S (length rest)) + 1) by lia.
      reflexivity.
    + simpl in Hrange. lia.
    + intros i documents' Hi. specialize (Hfiles (S i) documents' Hi).
      cbv zeta in *.
      by replace (version + 1 + 1 + N.of_nat i)
        with (version + 1 + N.of_nat (S i)) by lia.
    + simpl in Habsent.
      by replace (version + 1 + N.of_nat (length rest) + 1)
        with (version + N.of_nat (S (length rest)) + 1) by lia.
    + simpl in Hfuel. lia.
    + done.
Qed.

(** The calls made while a checkpoint is found and loaded. *)
Lemma getCheckpointIfExists_trace (result files : gset string) (version : N)
    (trace : list Event) :
  fst (getCheckpointIfExists configuration result trace) = Ok (version, files) ->
  version <> 0 ->
  snd (getCheckpointIfExists configuration result trace)
  = trace ++ checkpoint_events configuration version.
Proof.
  unfold getCheckpointIfExists, readLastCheckpointIfExists, checkpoint_events.
  unfold mbind, IO_bind, io_exists, io_readDocuments, io_readCheckpoint, io_lift,
    mret, IO_ret.
  set (last_checkpoint_file := metadata_path configuration "_last_checkpoint").
  destruct (exists_ last_checkpoint_file configuration); simpl;
    [|congruence].
  repeat match goal with
         | |- context [match ?x with Ok _ => _ | Throw _ => _ end] =>
             destruct x; simpl
         | |- context [bool_decide ?P] =>
             destruct (decide P);
             [rewrite (bool_decide_eq_true_2 P) by done
             |rewrite (bool_decide_eq_false_2 P) by done]; simpl
         end; try congruence.
  intros [= -> ->] _. by rewrite <- !app_assoc.
Qed.

Lemma processMetadataFiles_after_checkpoint (fuel : nat) (files : gset string)
    (version : N) (trace : list Event) :
  fst (getCheckpointIfExists configuration ∅ trace) = Ok (version, files) ->
  version <> 0 ->
  processMetadataFiles configuration fuel trace =
  match processVersions configuration fuel version
          (with_result_files initial_state files)
          (trace ++ checkpoint_events configuration version) with
  | (Ok (Some (_, st)), trace') => (Ok (Some (makeMetadata st)), trace')
  | (Ok None, trace') => (Ok None, trace')
  | (Throw e, trace') => (Throw e, trace')
  end.
Proof.
  intros Hfound Hversion.
  pose proof (getCheckpointIfExists_trace _ _ _ _ Hfound Hversion) as Htrace.
  unfold processMetadataFiles. unfold mbind at 1. unfold IO_bind at 1.
  destruct (getCheckpointIfExists configuration ∅ trace) as [[[v f]|e] trace1];
    simpl in Hfound, Htrace; [|done].
  injection Hfound as -> ->. subst trace1.
  rewrite bool_decide_eq_false_2 by done. simpl.
  unfold mbind, IO_bind, mret, IO_ret.
  destruct (processVersions _ _ _ _ _) as [[[[v st]|]|e] trace']; done.
Qed.

Lemma scan_events_versions (present : nat) :
  forall version,
  Forall (fun event =>
            exists i, (i <= present)%nat /\
              let file_path :=
                metadata_path configuration
                  (log_file_name (version + 1 + N.of_nat i)) in
              event = ExistsCall file_path \/ event = ReadCall file_path)
         (scan_events configuration version present).
Proof.
  induction present as [|present IH]; intros version; cbn [scan_events].
  - constructor; [|constructor]. exists O. split; [lia|].
    left. by rewrite N.add_0_r.
  - constructor; [|constructor].
    + exists O. split; [lia|]. left. by rewrite N.add_0_r.
    + exists O. split; [lia|]. right. by rewrite N.add_0_r.
    + eapply Forall_impl; [apply (IH (version + 1))|].
      intros event (i & Hi & Hevent). exists (S i). split; [lia|].
      cbv zeta in *.
      by replace (version + 1 + N.of_nat (S i))
        with (version + 1 + 1 + N.of_nat i) by lia.
Qed.

End Scan.

(** C4, as the code has it.  A checkpoint at version [V] has been found and
    loaded, the files of the next [k] versions are present, with [contents] as
    their documents, and the file of version [V+k+1] is absent, all these
    versions being below [2^64], the range of the [size_t] counter.  Then,
    after the three calls that load the checkpoint, the parser makes the
    calls of [scan_events]: for [V+1], ..., [V+k] in this order an existence
    check followed by a read, and a last existence check for [V+k+1]; each of
    them concerns a version between [V+1] and [V+k+1].  If a file raises an
    error or the bound on the iterations is reached, the calls made are an
    initial part of these; when all files are processed without error and the
    bound exceeds [k], they are exactly these and the snapshot is built from
    the state reached. *)
Theorem version_scan_after_checkpoint {E : Collaborators}
    (configuration : Configuration) {helper : MetadataReadHelper}
    (version : N) (files : gset string) (contents : list (list json)) (fuel : nat) :
  let present := length contents in
  let log_path i :=
    metadata_path configuration (log_file_name (version + 1 + N.of_nat i)) in
  fst (getCheckpointIfExists configuration ∅ []) = Ok (version, files) ->
  version <> 0 ->
  version + N.of_nat present + 1 < 2 ^ 64 ->
  (forall i documents, contents !! i = Some documents ->
     exists_ (log_path i) configuration = true /\
     readDocuments (log_path i) configuration = Ok documents) ->
  exists_ (log_path present) configuration = false ->
  (exists events,
      snd (processMetadataFiles configuration fuel [])
      = (checkpoint_events configuration version ++ events)%list /\
      events `prefix_of` scan_events configuration version present) /\
  ((present < fuel)%nat ->
   forall st',
     processFiles configuration contents (with_result_files initial_state files)
     = Ok st' ->
     processMetadataFiles configuration fuel []
     = (Ok (Some (makeMetadata st')),
        (checkpoint_events configuration version
         ++ scan_events configuration version present)%list)) /\
  Forall (fun event =>
            exists i, (i <= present)%nat /\
              (event = ExistsCall (log_path i) \/ event = ReadCall (log_path i)))
         (scan_events configuration version present).
Proof.
  intros present log_path Hfound Hversion Hrange Hfiles Habsent.
  assert (Habsent' : exists_ (metadata_path configuration
                       (log_file_name (version + N.of_nat present + 1)))
                       configuration = false).
  { subst log_path. cbv beta in Habsent.
    by replace (version + N.of_nat present + 1)
      with (version + 1 + N.of_nat present) by lia. }
  rewrite (processMetadataFiles_after_checkpoint _ _ files version) by done.
  split; [|split].
  - destruct (processVersions_trace configuration fuel present version
                (with_result_files initial_state files)
                ([] ++ checkpoint_events configuration version)%list)
      as (events & Hevents & Hprefix); [done| |done|].
    { intros i Hi. destruct (lookup_lt_is_Some_2 contents i Hi) as [documents Hi'].
      by destruct (Hfiles i documents Hi'). }
    exists events. split; [|done].
    by destruct (processVersions _ _ _ _ _) as [[[[v st]|]|e] trace'].
  - intros Hfuel st' Hrun.
    by rewrite (processVersions_complete configuration contents fuel version _ st').
  - apply scan_events_versions.
Qed.

Lemma version_scan_after_checkpoint_witness :
  Sample.run
    (Sample.store_with_checkpoint 10 ["b.parquet"; "c.parquet"]
       [(11, [Sample.remove "b.parquet"])])
  = (Ok (Some {| schema := [];
                 data_files := ["lake/t/c.parquet"];
                 partition_columns := ∅ |}),
     [ExistsCall "lake/t/_delta_log/_last_checkpoint";
      ReadCall "lake/t/_delta_log/_last_checkpoint";
      ReadCall "lake/t/_delta_log/00000000000000000010.checkpoint.parquet";
      ExistsCall "lake/t/_delta_log/00000000000000000011.json";
      ReadCall "lake/t/_delta_log/00000000000000000011.json";
      ExistsCall "lake/t/_delta_log/00000000000000000012.json"]).
Proof.
  unfold Sample.run.
  destruct (@version_scan_after_checkpoint Sample.environment Sample.configuration
              (Reference.helper
                 (Sample.store_with_checkpoint 10 ["b.parquet"; "c.parquet"]
                    [(11, [Sample.remove "b.parquet"])]))
              10 ({[ "lake/t/b.parquet"; "lake/t/c.parquet" ]} : gset string)
              [[Sample.remove "b.parquet"]] 100) as (_ & Hrun & _).
  - vm_compute. reflexivity.
  - discriminate.
  - reflexivity.
  - intros [|[|i]] documents [=]. subst. split; vm_compute; reflexivity.
  - vm_compute. reflexivity.
  - rewrite (Hrun ltac:(simpl; lia)
               (with_result_files initial_state {[ "lake/t/c.parquet" ]})).
    + vm_compute. reflexivity.
    + vm_compute. reflexivity.
Defined.

(** ** The recursion of the type resolver

    [getFieldType] runs [getFieldType_fuel] with the depth of the field as
    bound; any larger bound gives the same result, so the bound is never what
    stops the recursion. *)

Section ResolverFuel.
Context {E : Collaborators}.

Lemma get_depth (object : Object) (key : string) :
  (json_depth (get object key) < json_depth (JObject object))%nat.
Proof.
  induction object as [|[k v] object IH]; simpl in *; [lia|].
  destruct (decide (k = key)); lia.
Qed.

Lemma element_depth (elements : list json) (x : json) :
  x ∈ elements -> (json_depth x < json_depth (JArray elements))%nat.
Proof.
  induction 1 as [x elements|x y elements _ IH]; simpl in *; lia.
Qed.

Lemma mapM_Result_ext {A B} (f g : A -> Result B) (l : list A) :
  (forall x, x ∈ l -> f x = g x) -> mapM f l = mapM g l.
Proof.
  induction l as [|x l IH]; intros Hfg; [done|]. simpl.
  rewrite (Hfg x) by constructor.
  rewrite IH; [done|]. intros y Hy. apply Hfg. by constructor.
Qed.

Lemma getComplexTypeFromObject_ext
    (rec1 rec2 : Object -> string -> bool -> Result DataType) (type : Object) :
  (forall key is_nullable, rec1 type key is_nullable = rec2 type key is_nullable) ->
  (forall elements field, get type "fields" = JArray elements ->
     JObject field ∈ elements ->
     forall key is_nullable, rec1 field key is_nullable = rec2 field key is_nullable) ->
  getComplexTypeFromObject rec1 type = getComplexTypeFromObject rec2 type.
Proof.
  intros Htype Hfields. unfold getComplexTypeFromObject.
  destruct (getValue_String type "type") as [type_name|e]; [|done]. simpl.
  repeat case_bool_decide.
  - destruct (get type "fields") as [| | | |elements|] eqn:Hget; try done. simpl.
    rewrite (mapM_Result_ext _
               (fun element =>
                  field ← getObject element;
                  name ← getValue_String field "name";
                  required ← getValue_bool field "required";
                  element_type ← rec2 field "type" required;
                  Ok (element_type, name)) elements); [done|].
    intros element Hin. destruct element as [| | | | |field]; try done. simpl.
    destruct (getValue_String field "name"); [|done]. simpl.
    destruct (getValue_bool field "required"); [|done]. simpl.
    by rewrite (Hfields elements field).
  - destruct (getValue_bool type "containsNull"); [|done]. simpl.
    by rewrite Htype.
  - destruct (getValue_bool type "containsNull"); [|done]. simpl.
    by rewrite !Htype.
  - done.
Qed.

Lemma getFieldType_fuel_enough (fuel1 : nat) :
  forall (fuel2 : nat) (field : Object) (type_key : string) (is_nullable : bool),
  (json_depth (JObject field) <= fuel1)%nat ->
  (json_depth (JObject field) <= fuel2)%nat ->
  getFieldType_fuel fuel1 field type_key is_nullable
  = getFieldType_fuel fuel2 field type_key is_nullable.
Proof.
  induction fuel1 as [|fuel1 IH]; intros fuel2 field type_key is_nullable H1 H2.
  - simpl in H1. lia.
  - destruct fuel2 as [|fuel2]; [simpl in H2; lia|]. simpl.
    pose proof (get_depth field type_key) as Hdepth.
    destruct (get field type_key) as [| | | | |type] eqn:Hget; try done.
    apply getComplexTypeFromObject_ext.
    + intros key nullable. apply IH; lia.
    + intros elements field' Hfields Hin key nullable.
      pose proof (get_depth type "fields") as Hd1. rewrite Hfields in Hd1.
      pose proof (element_depth _ _ Hin) as Hd2.
      apply IH; lia.
Qed.

Lemma getFieldType_fuel_stable (fuel : nat) (field : Object) (type_key : string)
    (is_nullable : bool) :
  (json_depth (JObject field) <= fuel)%nat ->
  getFieldType_fuel fuel field type_key is_nullable
  = getFieldType field type_key is_nullable.
Proof. intros Hfuel. by apply getFieldType_fuel_enough. Qed.

End ResolverFuel.

(** ** The parse of a log without checkpoint *)

Section Listing.
Context {E : Collaborators} (configuration : Configuration)
        {helper : MetadataReadHelper}.

Local Open Scope list_scope.

Lemma processKeys_result (keys : list string) :
  forall (contents : list (list json)) (st : ParserState) (trace : list Event),
  Forall2 (fun key documents => readDocuments key configuration = Ok documents)
          keys contents ->
  fst (processKeys configuration keys st trace)
  = processFiles configuration contents st.
Proof.
  induction keys as [|key keys IH]; intros contents st trace Hread;
    inversion Hread as [|? documents ? rest Hkey Hrest]; subst; [done|].
  cbn [processKeys processFiles].
  unfold mbind at 1. unfold IO_bind, processMetadataFile.
  unfold mbind at 1. unfold IO_bind, io_readDocuments, io_lift.
  rewrite Hkey.
  destruct (processDocuments configuration documents st) as [st'|e]; [|done].
  simpl. by apply IH.
Qed.

(** Without [_last_checkpoint], the snapshot is built from the documents of
    the listed files, taken in the order of the listing. *)
Lemma processMetadataFiles_without_checkpoint (fuel : nat)
    (contents : list (list json)) :
  exists_ (metadata_path configuration "_last_checkpoint") configuration = false ->
  Forall2 (fun key documents => readDocuments key configuration = Ok documents)
          (listFiles configuration deltalake_metadata_directory metadata_file_suffix)
          contents ->
  fst (processMetadataFiles configuration fuel [])
  = (st ← processDocuments configuration (concat contents) initial_state;
     Ok (Some (makeMetadata st))).
Proof.
  intros Habsent Hread.
  unfold processMetadataFiles, getCheckpointIfExists, readLastCheckpointIfExists.
  unfold mbind at 1. unfold IO_bind.
  unfold mbind at 1. unfold IO_bind.
  unfold mbind at 1. unfold IO_bind, io_exists.
  rewrite Habsent. simpl.
  unfold mbind at 1. unfold IO_bind, io_listFiles.
  unfold mbind at 1. unfold IO_bind.
  pose proof (processKeys_result _ _
                (with_result_files initial_state ∅)
                ([] ++ [ExistsCall (metadata_path configuration "_last_checkpoint")]
                 ++ [ListFilesCall deltalake_metadata_directory metadata_file_suffix])
                Hread) as Hkeys.
  rewrite processFiles_concat in Hkeys.
  change (with_result_files initial_state ∅) with initial_state in *.
  simpl in Hkeys |- *.
  destruct (processKeys _ _ _ _) as [[st|e] trace']; simpl in Hkeys;
    by rewrite <- Hkeys.
Qed.

End Listing.

(** C4, as stated, fails at the end of the range of [size_t]: after a
    checkpoint at version [2^64 - 1] the increment of line 104 wraps to 0, and
    the file of version 0 is checked, read and processed. *)
Lemma version_scan_wraps_around :
  Sample.run
    (Sample.store_with_checkpoint 18446744073709551615 ["c.parquet"]
       [(0, [Sample.add "a.parquet" []])])
  = (Ok (Some {| schema := [];
                 data_files := ["lake/t/a.parquet"; "lake/t/c.parquet"];
                 partition_columns := ∅ |}),
     [ExistsCall "lake/t/_delta_log/_last_checkpoint";
      ReadCall "lake/t/_delta_log/_last_checkpoint";
      ReadCall "lake/t/_delta_log/18446744073709551615.checkpoint.parquet";
      ExistsCall "lake/t/_delta_log/00000000000000000000.json";
      ReadCall "lake/t/_delta_log/00000000000000000000.json";
      ExistsCall "lake/t/_delta_log/00000000000000000001.json"]).
Proof. vm_compute. reflexivity. Qed.


(** * Further properties of the code *)

(** ** Type names *)

(** X1.  [getSimpleTypeByName] maps each of the eleven primitive names to its
    type, and raises BAD_ARGUMENTS for every other name that does not both
    start with [decimal(] and end with a closing parenthesis. *)
Theorem primitive_type_names {E : Collaborators} (type_name : string) :
  (forall t, (type_name, t) ∈ primitive_types ->
             getSimpleTypeByName type_name = Ok t) /\
  (type_name ∉ map fst primitive_types ->
   starts_with "decimal(" type_name && ends_with ")" type_name = false ->
   getSimpleTypeByName type_name = Throw BAD_ARGUMENTS).
Proof.
  split.
  - intros t Hin. unfold primitive_types in Hin.
    repeat (apply elem_of_cons in Hin as [[= -> ->]|Hin]; [reflexivity|]).
    by apply elem_of_nil in Hin.
  - intros Hnot Hform. unfold getSimpleTypeByName.
    assert (Hne : forall name : string,
               name ∈ map fst primitive_types ->
               bool_decide (type_name = name) = false).
    { intros name Hname. apply bool_decide_eq_false. by intros ->. }
    rewrite !Hne by (simpl; set_solver). simpl orb. cbv iota.
    by rewrite Hform.
Qed.

Lemma primitive_type_names_witness :
  @getSimpleTypeByName (Reference.collaborators []) "varchar" = Throw BAD_ARGUMENTS /\
  @getSimpleTypeByName (Reference.collaborators []) "decimal(10,2" = Throw BAD_ARGUMENTS.
Proof.
  split.
  - apply (proj2 (@primitive_type_names (Reference.collaborators []) "varchar")).
    + vm_compute. intros Hin. repeat (apply elem_of_cons in Hin as [[=]|Hin]).
      by apply elem_of_nil in Hin.
    + vm_compute. reflexivity.
  - apply (proj2 (@primitive_type_names (Reference.collaborators []) "decimal(10,2")).
    + vm_compute. intros Hin. repeat (apply elem_of_cons in Hin as [[=]|Hin]).
      by apply elem_of_nil in Hin.
    + vm_compute. reflexivity.
Defined.

(** ** Types of fields *)

Section FieldTypes.
Context {E : Collaborators}.

Lemma getFieldType_object (field type : Object) (type_key : string)
    (is_nullable : bool) :
  get field type_key = JObject type ->
  exists fuel,
    getFieldType field type_key is_nullable
    = getComplexTypeFromObject (getFieldType_fuel fuel) type.
Proof.
  intros Hget. unfold getFieldType.
  destruct (json_depth (JObject field)) as [|fuel] eqn:Hdepth; [done|].
  exists fuel. simpl. by rewrite Hget.
Qed.

Lemma getFieldType_fuel_string (fuel : nat) (field : Object) (type_key : string)
    (is_nullable : bool) (type_name : string) :
  get field type_key = JString type_name ->
  getFieldType_fuel fuel field type_key is_nullable =
  (data_type ← getSimpleTypeByName type_name;
   Ok (if is_nullable then makeNullable data_type else data_type)).
Proof. intros Hget. destruct fuel; simpl; by rewrite Hget. Qed.

Lemma isNullable_makeNullable (t : DataType) : isNullable (makeNullable t) = true.
Proof. unfold makeNullable. by destruct (isNullable t) eqn:Ht. Qed.

Lemma mapM_Result_Ok {A B} (f : A -> Result B) (l : list A) (k : list B) :
  Forall2 (fun x y => f x = Ok y) l k -> mapM f l = Ok k.
Proof.
  induction 1 as [|x y l k Hxy _ IH]; [done|]. simpl.
  by rewrite Hxy, IH.
Qed.

Lemma mapM_Result_inv {A B} (f : A -> Result B) (l : list A) (k : list B) :
  mapM f l = Ok k -> Forall2 (fun x y => f x = Ok y) l k.
Proof.
  revert k. induction l as [|x l IH]; intros k; simpl.
  - intros [= <-]. constructor.
  - intros H. apply bind_Ok in H as (y & Hy & H).
    apply bind_Ok in H as (k' & Hk' & H). injection H as <-.
    constructor; auto.
Qed.

End FieldTypes.

(** X2.  [getFieldType] uses its nullability argument only for a type given
    by name: such a type is resolved by [getSimpleTypeByName] and, when the
    argument is set, comes back nullable; for a type given by a nested object
    (struct, array, map) the argument has no effect on the result. *)
Theorem field_nullability {E : Collaborators} (field : Object) (type_key : string) :
  (forall type, get field type_key = JObject type ->
     getFieldType field type_key true = getFieldType field type_key false) /\
  (forall type_name, get field type_key = JString type_name ->
     getFieldType field type_key false = getSimpleTypeByName type_name /\
     forall t, getFieldType field type_key true = Ok t ->
       isNullable t = true /\
       exists data_type, getSimpleTypeByName type_name = Ok data_type /\
                         t = makeNullable data_type).
Proof.
  split.
  - intros type Hget. unfold getFieldType.
    destruct (json_depth (JObject field)) as [|fuel]; simpl; by rewrite Hget.
  - intros type_name Hget. unfold getFieldType.
    rewrite !(getFieldType_fuel_string _ _ _ _ type_name Hget).
    destruct (getSimpleTypeByName type_name) as [data_type|e]; simpl; [|done].
    split; [done|]. intros t [= <-]. split; [apply isNullable_makeNullable|].
    by exists data_type.
Qed.

Lemma field_nullability_witness :
  exists t,
    @getFieldType (Reference.collaborators [])
      [("name", JString "xs"); ("type", JString "long")] "type" true = Ok t /\
    isNullable t = true.
Proof.
  eexists. split; [reflexivity|].
  exact (proj1 (proj2 (proj2 (@field_nullability (Reference.collaborators [])
            [("name", JString "xs"); ("type", JString "long")] "type")
            "long" eq_refl) _ eq_refl)).
Defined.

(** X3.  For an array given by a nested object whose element type is a
    primitive name, the element is nullable exactly when [containsNull] is
    set.  For a map whose key and value types are primitive names, the key
    is never made nullable and the value is nullable exactly when
    [containsNull] is set.  The nullability asked of the field itself plays
    no part. *)
Theorem array_and_map_types {E : Collaborators} (field type : Object)
    (type_key : string) (is_nullable contains_null : bool) :
  get field type_key = JObject type ->
  getValue_bool type "containsNull" = Ok contains_null ->
  (forall element_name element,
      getValue_String type "type" = Ok "array" ->
      get type "elementType" = JString element_name ->
      getSimpleTypeByName element_name = Ok element ->
      getFieldType field type_key is_nullable
      = Ok (TArray (if contains_null then makeNullable element else element))) /\
  (forall key_name value_name key value,
      getValue_String type "type" = Ok "map" ->
      get type "keyType" = JString key_name ->
      get type "valueType" = JString value_name ->
      getSimpleTypeByName key_name = Ok key ->
      getSimpleTypeByName value_name = Ok value ->
      getFieldType field type_key is_nullable
      = Ok (TMap key (if contains_null then makeNullable value else value))).
Proof.
  intros Hget Hnull.
  destruct (getFieldType_object field type type_key is_nullable Hget)
    as [fuel ->].
  unfold getComplexTypeFromObject. split.
  - intros element_name element Htype Helement Hsimple.
    rewrite Htype. simpl. rewrite Hnull. simpl.
    rewrite (getFieldType_fuel_string _ _ _ _ element_name Helement), Hsimple.
    reflexivity.
  - intros key_name value_name key value Htype Hkey Hvalue Hk Hv.
    rewrite Htype. simpl. rewrite Hnull. simpl.
    rewrite (getFieldType_fuel_string _ _ _ _ key_name Hkey), Hk. simpl.
    rewrite (getFieldType_fuel_string _ _ _ _ value_name Hvalue), Hv.
    reflexivity.
Qed.

Lemma array_and_map_types_witness :
  @getFieldType (Reference.collaborators [])
    [("type", JObject [("type", JString "map"); ("keyType", JString "string");
                       ("valueType", JString "long");
                       ("containsNull", JBool true)])] "type" false
  = Ok (TMap TString (TNullable TInt64)).
Proof.
  exact (proj2 (@array_and_map_types (Reference.collaborators [])
                  [("type", JObject [("type", JString "map");
                                     ("keyType", JString "string");
                                     ("valueType", JString "long");
                                     ("containsNull", JBool true)])]
                  _ "type" false true eq_refl eq_refl)
           "string" "long" TString TInt64 eq_refl eq_refl eq_refl eq_refl eq_refl).
Defined.

(** X4.  For a struct given by a nested object whose members have primitive
    types, the tuple has one element per member, in the order of [fields],
    with the names of the members; the type of a member is made nullable
    exactly when its [required] flag is set. *)
Theorem struct_type {E : Collaborators} (field type : Object) (type_key : string)
    (is_nullable : bool) (elements : list json)
    (columns : list (DataType * string)) :
  get field type_key = JObject type ->
  getValue_String type "type" = Ok "struct" ->
  get type "fields" = JArray elements ->
  Forall2 struct_member elements columns ->
  getFieldType field type_key is_nullable
  = Ok (TTuple (map fst columns) (map snd columns)).
Proof.
  intros Hget Htype Hfields Hmembers.
  destruct (getFieldType_object field type type_key is_nullable Hget)
    as [fuel ->].
  unfold getComplexTypeFromObject. rewrite Htype. simpl. rewrite Hfields. simpl.
  rewrite (mapM_Result_Ok _ elements columns); [done|].
  eapply Forall2_impl; [exact Hmembers|].
  intros element [t name]
    (member & type_name & data_type & required & -> & Hname & Hrequired
     & Hmember & Hsimple & Ht).
  simpl in *. rewrite Hname. simpl. rewrite Hrequired. simpl.
  rewrite (getFieldType_fuel_string _ _ _ _ type_name Hmember), Hsimple.
  simpl. by rewrite Ht.
Qed.

Lemma struct_type_witness :
  @getFieldType (Reference.collaborators [])
    [("type",
      JObject [("type", JString "struct");
               ("fields",
                JArray [JObject [("name", JString "a"); ("type", JString "long");
                                 ("required", JBool true)];
                        JObject [("name", JString "b"); ("type", JString "string");
                                 ("required", JBool false)]])])] "type" true
  = Ok (TTuple [TNullable TInt64; TString] ["a"; "b"]).
Proof.
  eapply (@struct_type (Reference.collaborators []) _ _ "type" true _
            [(TNullable TInt64, "a"); (TString, "b")]);
    [reflexivity | reflexivity | reflexivity |].
  repeat constructor.
  - by eexists _, "long", TInt64, true.
  - by eexists _, "string", TString, false.
Defined.

(** ** Partition literals *)

(** X5.  [getFieldValue] has no reader for decimals, tuples, arrays and maps:
    for such a type, nullable or not, it raises BAD_ARGUMENTS whatever the
    text.  A string type gives the text back as it is.  For a type that is
    neither nullable nor a timestamp, wrapping it in Nullable changes
    nothing to the value read. *)
Theorem partition_literal_types {E : Collaborators} (value : string) (t : DataType) :
  (unsupported_partition_type t = true ->
   getFieldValue value t = Throw BAD_ARGUMENTS /\
   getFieldValue value (TNullable t) = Throw BAD_ARGUMENTS) /\
  (t = TString \/ (exists n, t = TFixedString n) ->
   getFieldValue value t = Ok (FString value)) /\
  (plain_type t = true ->
   getFieldValue value (TNullable t) = getFieldValue value t) /\
  getFieldValue value (TNullable (TNullable t)) = Throw BAD_ARGUMENTS.
Proof.
  repeat split.
  - by destruct t.
  - by destruct t.
  - by intros [->|[n ->]].
  - by destruct t.
Qed.

Lemma partition_literal_types_witness :
  @getFieldValue (Reference.collaborators []) "1.50" (TNullable (TDecimal 10 2))
  = Throw BAD_ARGUMENTS /\
  @getFieldValue (Reference.collaborators []) "7" (TNullable TInt64)
  = @getFieldValue (Reference.collaborators []) "7" TInt64.
Proof.
  pose proof (@partition_literal_types (Reference.collaborators []) "1.50"
                (TDecimal 10 2)) as (Hdecimal & _).
  pose proof (@partition_literal_types (Reference.collaborators []) "7" TInt64)
    as (_ & _ & Hplain & _).
  split; [exact (proj2 (Hdecimal eq_refl)) | exact (Hplain eq_refl)].
Defined.

(** ** Decimal names, continued *)

(** X6.  After the digits of the scale, [getSimpleTypeByName] does not look
    at what is left before the closing parenthesis: any text that does not
    start with a digit may follow the scale without changing the result. *)
Theorem decimal_trailing_text_ignored {E : Collaborators} (p s : N)
    (ws1 ws2 rest : string) :
  p < 2 ^ 64 -> s < 2 ^ 64 ->
  is_whitespace ws1 = true -> is_whitespace ws2 = true ->
  starts_with_digit rest = false ->
  getSimpleTypeByName
    ("decimal(" ++ toString p ++ ws1 ++ "," ++ ws2 ++ toString s ++ rest ++ ")")
  = createDecimal p s.
Proof.
  intros Hp Hs Hws1 Hws2 Hrest.
  replace ("decimal(" ++ toString p ++ ws1 ++ "," ++ ws2 ++ toString s ++ rest ++ ")")
    with ("decimal(" ++ (toString p ++ ws1 ++ "," ++ ws2 ++ toString s ++ rest) ++ ")")
    by (by rewrite !string_app_assoc).
  rewrite getSimpleTypeByName_decimal.
  rewrite readIntText_toString;
    [| exact Hp | by apply whitespace_then_no_digit].
  simpl. rewrite skipWhitespaceIfAny_app by exact Hws1.
  rewrite string_app_cons. simpl. rewrite string_app_nil_l.
  rewrite skipWhitespaceIfAny_app by exact Hws2.
  rewrite skipWhitespaceIfAny_toString.
  by rewrite tryReadIntText_toString.
Qed.

Lemma decimal_trailing_text_ignored_witness :
  @getSimpleTypeByName (Reference.collaborators []) "decimal(10,2 scale)"
  = Ok (TDecimal 10 2).
Proof.
  exact (@decimal_trailing_text_ignored (Reference.collaborators [])
           10 2 "" "" " scale" eq_refl eq_refl eq_refl eq_refl eq_refl).
Defined.

(** ** File names, continued *)

Lemma string_app_inv_head (s1 : string) : forall (s2 t1 t2 : string),
  String.length s1 = String.length s2 -> s1 ++ t1 = s2 ++ t2 -> s1 = s2.
Proof.
  induction s1 as [|a s1 IH]; intros [|b s2] t1 t2 Hlen; try discriminate; [done|].
  rewrite !string_app_cons. intros [= -> Heq]. f_equal.
  apply (IH s2 t1 t2); [simpl in Hlen; lia | done].
Qed.

(** X7.  Below [10^20] the padded name of a version has exactly 20
    characters and two different versions never get the same name. *)
Theorem withPadding_injective (v w : N) :
  v < 10 ^ 20 -> w < 10 ^ 20 ->
  String.length (withPadding v) = 20%nat /\
  (withPadding v = withPadding w -> v = w) /\
  (log_file_name v = log_file_name w -> v = w).
Proof.
  intros Hv Hw.
  rewrite !(withPadding_fixed_digits v), !(withPadding_fixed_digits w) by done.
  unfold log_file_name.
  rewrite !(withPadding_fixed_digits v), !(withPadding_fixed_digits w) by done.
  assert (Hinj : fixed_digits 20 v = fixed_digits 20 w -> v = w).
  { intros Heq. apply N.compare_eq_iff.
    rewrite <- (fixed_digits_compare 20) by done.
    rewrite Heq. apply compare_refl. }
  split; [apply fixed_digits_length|]. split; [exact Hinj|].
  intros Heq. apply Hinj.
  apply (string_app_inv_head _ _ _ _ ltac:(by rewrite !fixed_digits_length) Heq).
Qed.

Lemma withPadding_injective_witness :
  String.length (withPadding 7) = 20%nat /\
  (withPadding 7 = withPadding 70 -> 7 = 70).
Proof.
  pose proof (withPadding_injective 7 70 eq_refl eq_refl) as (Hlen & Hinj & _).
  by split.
Defined.

(** ** The snapshot *)

(** X8.  The files of the snapshot are the elements of the set of files,
    each listed once, in the increasing order of strings. *)
Theorem data_files_sorted (st : ParserState) :
  let metadata := makeMetadata st in
  (forall file, file ∈ data_files metadata <-> file ∈ result_files st) /\
  NoDup (data_files metadata) /\
  StronglySorted String.le (data_files metadata) /\
  length (data_files metadata) = size (result_files st) /\
  schema metadata = current_schema st /\
  partition_columns metadata = current_partition_columns st.
Proof.
  simpl. repeat split.
  - intros Hin. apply elem_of_elements.
    by rewrite <- (merge_sort_Permutation String.le).
  - intros Hin. rewrite (merge_sort_Permutation String.le).
    by apply elem_of_elements.
  - rewrite (merge_sort_Permutation String.le). apply NoDup_elements.
  - apply StronglySorted_merge_sort; apply _.
  - by rewrite (merge_sort_Permutation String.le).
Qed.


(** ** What a log can and cannot change *)

Section Invariants.
Context {E : Collaborators} (configuration : Configuration).

Lemma processAdd_partition_columns (object : Object) (st st' : ParserState) :
  processAdd configuration object st = Ok st' ->
  forall filename columns,
    current_partition_columns st !! filename = Some columns ->
    current_partition_columns st' !! filename = Some columns.
Proof.
  unfold processAdd. intros H filename columns Hrecord.
  apply bind_Ok in H as (add_object & _ & H).
  apply bind_Ok in H as (path & _ & H). simpl in H.
  destruct (current_partition_columns st !! path_filename path) eqn:Hfile;
    [by injection H as <-|].
  apply bind_Ok in H as (partition_values & _ & H).
  case_bool_decide; [by injection H as <-|].
  apply bind_Ok in H as (new & _ & H). injection H as <-. simpl.
  rewrite lookup_insert_ne; [done|].
  intros Heq. subst filename. simpl in Hfile. congruence.
Qed.

Lemma processObject_partition_columns (object : Object) (st st' : ParserState) :
  processObject configuration object st = Ok st' ->
  forall filename columns,
    current_partition_columns st !! filename = Some columns ->
    current_partition_columns st' !! filename = Some columns.
Proof.
  intros H filename columns Hrecord.
  apply processObject_files in H as (st1 & H1 & H2).
  assert (H1' : current_partition_columns st1 !! filename = Some columns).
  { unfold processAddOrRemove in H1. destruct (has object "add").
    - by eapply processAdd_partition_columns.
    - destruct (has object "remove"); [|by injection H1 as <-].
      rewrite processRemove_spec in H1.
      apply bind_Ok in H1 as (? & _ & H1). by injection H1 as <-. }
  destruct (has object "metaData").
  - apply processMetaData_result_files in H2 as (_ & Hsame & _). by rewrite Hsame.
  - by injection H2 as <-.
Qed.

Lemma processObject_new_file (object : Object) (st st' : ParserState) (file : string) :
  processObject configuration object st = Ok st' ->
  file ∈ result_files st' ->
  file ∈ result_files st \/
  exists path, add_path object = Ok path /\
               file = path_append (getPath configuration) path.
Proof.
  intros H Hin. pose proof H as Hrun.
  apply processObject_files in H as (st1 & H1 & H2).
  unfold processAddOrRemove in H1.
  destruct (has object "add") eqn:Hadd.
  - apply processAdd_result_files in H1 as (path & Hpath & _).
    rewrite (processObject_add_member _ _ _ _ path Hpath Hrun) in Hin.
    apply elem_of_union in Hin as [Hin%elem_of_singleton|Hin]; [right|by left].
    by exists path.
  - left. destruct (has object "remove") eqn:Hremove.
    + rewrite processRemove_spec in H1.
      apply bind_Ok in H1 as (path & Hpath & _).
      destruct (processObject_remove_member _ _ _ _ path Hadd Hpath Hrun) as [Hfiles _].
      rewrite Hfiles in Hin. set_solver.
    + injection H1 as <-. destruct (has object "metaData").
      * apply processMetaData_result_files in H2 as (Hsame & _). by rewrite <- Hsame.
      * by injection H2 as <-.
Qed.

End Invariants.

(** X9.  A successful parse of any documents never changes or drops a
    partition record: the columns recorded for a file name before are the
    columns recorded for it after.  In particular a later [add] of a file
    with the same base name does not replace them. *)
Theorem partition_records_persist {E : Collaborators} (configuration : Configuration)
    (documents : list json) (st st' : ParserState) (filename : string)
    (columns : list DataLakePartitionColumn) :
  processDocuments configuration documents st = Ok st' ->
  current_partition_columns st !! filename = Some columns ->
  current_partition_columns st' !! filename = Some columns.
Proof.
  revert st. induction documents as [|document rest IH]; intros st H Hrecord.
  - by injection H as <-.
  - simpl in H. apply bind_Ok in H as (object & _ & H).
    apply bind_Ok in H as (st1 & Hstep & H).
    apply (IH st1 H).
    by eapply processObject_partition_columns.
Qed.

Lemma partition_records_persist_witness :
  exists st',
    @processDocuments Sample.environment Sample.configuration
      [Sample.add "q/f.parquet" [("v", JString "8")]; Sample.remove "p/f.parquet"]
      {| result_files := {[ "lake/t/p/f.parquet" ]};
         current_schema := [("v", TInt64)];
         current_partition_columns :=
           {[ "f.parquet" :=
                [{| name_and_type := ("v", TInt64); value := FInt64 7 |}] ]} |}
    = Ok st' /\
    current_partition_columns st' !! "f.parquet"
    = Some [{| name_and_type := ("v", TInt64); value := FInt64 7 |}].
Proof.
  eexists. split; [vm_compute; reflexivity|].
  apply (@partition_records_persist Sample.environment Sample.configuration
           [Sample.add "q/f.parquet" [("v", JString "8")];
            Sample.remove "p/f.parquet"]
           {| result_files := {[ "lake/t/p/f.parquet" ]};
              current_schema := [("v", TInt64)];
              current_partition_columns :=
                {[ "f.parquet" :=
                     [{| name_and_type := ("v", TInt64); value := FInt64 7 |}] ]} |}).
  - vm_compute. reflexivity.
  - vm_compute. reflexivity.
Defined.

(** X10.  Once the schema is not empty, a successful parse of any documents
    leaves it as it is; and every schema shown by a [metaData] member of
    these documents is equal to it. *)
Theorem adopted_schema_is_final {E : Collaborators} (configuration : Configuration)
    (documents : list json) (st st' : ParserState) :
  current_schema st <> [] ->
  processDocuments configuration documents st = Ok st' ->
  current_schema st' = current_schema st /\
  Forall (fun observed => observed = current_schema st) (observed_schemas documents).
Proof.
  revert st. induction documents as [|document rest IH]; intros st Hne H.
  - injection H as <-. split; [done|constructor].
  - simpl in H. apply bind_Ok in H as (object & Hobject & H).
    apply bind_Ok in H as (st1 & Hstep & H).
    destruct document; try discriminate. injection Hobject as ->.
    apply processObject_schema in Hstep.
    unfold observed_schemas. cbn [omap list_omap].
    fold (omap observed_schema rest). fold (observed_schemas rest).
    destruct (observed_schema (JObject object)) as [observed|].
    + destruct Hstep as [Hnew Hsame].
      rewrite bool_decide_eq_false_2 in Hnew by done.
      destruct (IH st1) as [Hfinal Hall]; [by rewrite Hnew | done |].
      rewrite Hnew in Hfinal, Hall. split; [done|].
      constructor; [by apply Hsame | done].
    + destruct (IH st1) as [Hfinal Hall]; [by rewrite Hstep | done |].
      by rewrite Hstep in Hfinal, Hall.
Qed.

Lemma adopted_schema_is_final_witness :
  exists st',
    @processDocuments Sample.environment Sample.configuration
      [Sample.add "a.parquet" []; Sample.metaData Sample.schema_x_long]
      (with_schema initial_state [("x", TNullable TInt64)]) = Ok st' /\
    current_schema st' = [("x", TNullable TInt64)].
Proof.
  eexists. split; [vm_compute; reflexivity|].
  refine (proj1 (@adopted_schema_is_final Sample.environment Sample.configuration
                   [Sample.add "a.parquet" []; Sample.metaData Sample.schema_x_long]
                   (with_schema initial_state [("x", TNullable TInt64)]) _ _ _)).
  - discriminate.
  - vm_compute. reflexivity.
Defined.

(** X11.  Files enter the set only through [add] members: after a successful
    parse of any documents, a file of the set was in the set before or is the
    path of the [add] member of one of these documents, joined to the root. *)
Theorem files_come_from_adds {E : Collaborators} (configuration : Configuration)
    (documents : list json) (st st' : ParserState) (file : string) :
  processDocuments configuration documents st = Ok st' ->
  file ∈ result_files st' ->
  file ∈ result_files st \/
  exists object path,
    JObject object ∈ documents /\ add_path object = Ok path /\
    file = path_append (getPath configuration) path.
Proof.
  revert st. induction documents as [|document rest IH]; intros st H Hin.
  - injection H as <-. by left.
  - simpl in H. apply bind_Ok in H as (object & Hobject & H).
    apply bind_Ok in H as (st1 & Hstep & H).
    destruct document; try discriminate. injection Hobject as ->.
    destruct (IH st1 H Hin) as [Hin1|(object' & path & Hdoc & Hpath & ->)].
    + destruct (processObject_new_file _ _ _ _ _ Hstep Hin1)
        as [Hin0|(path & Hpath & ->)]; [by left|].
      right. exists object, path. split; [constructor|done].
    + right. exists object', path. split; [by constructor|done].
Qed.

Lemma files_come_from_adds_witness :
  "lake/t/a.parquet" ∈ (∅ : gset string) \/
  exists object path,
    JObject object ∈ [Sample.add "a.parquet" []; Sample.remove "b.parquet"] /\
    @add_path Sample.environment object = Ok path /\
    "lake/t/a.parquet" = path_append "lake/t" path.
Proof.
  eapply (@files_come_from_adds Sample.environment Sample.configuration
            [Sample.add "a.parquet" []; Sample.remove "b.parquet"]
            initial_state).
  - reflexivity.
  - simpl. set_solver.
Defined.

(** X12.  Documents that carry none of [add], [remove] and [metaData] are
    passed over: parsing any number of them gives the state back unchanged,
    and they can be put before any other documents without effect. *)
Theorem ignored_documents_change_nothing {E : Collaborators}
    (configuration : Configuration) (ignored others : list json)
    (st : ParserState) :
  Forall ignored_document ignored ->
  processDocuments configuration ignored st = Ok st /\
  processDocuments configuration (ignored ++ others)%list st
  = processDocuments configuration others st.
Proof.
  intros Hignored.
  assert (Hsame : processDocuments configuration ignored st = Ok st).
  { induction Hignored as [|document rest (object & -> & Ha & Hr & Hm) _ IH];
      [done|].
    simpl. unfold processObject, processAddOrRemove. rewrite Ha, Hr. simpl.
    by rewrite Hm. }
  split; [done|]. by rewrite processDocuments_app, Hsame.
Qed.

Lemma ignored_documents_change_nothing_witness :
  @processDocuments Sample.environment Sample.configuration
    [JObject [("commitInfo", JObject [("operation", JString "WRITE")])];
     JObject [("protocol", JObject [("minReaderVersion", JNumber 2)])]]
    initial_state
  = Ok initial_state.
Proof.
  apply (@ignored_documents_change_nothing Sample.environment Sample.configuration
           _ [] initial_state).
  repeat constructor; by eexists.
Defined.

(** X13.  A successful load of the rows of a checkpoint only adds to the set
    of files, and adds exactly as many files as there are rows with a
    non-empty path. *)
Theorem checkpoint_rows_counted (configuration : Configuration)
    (path_column : list string) (result result' : gset string) :
  insertCheckpointPaths configuration path_column result = Ok result' ->
  result ⊆ result' /\
  size result' =
    (size result + length (filter (fun filename => filename <> "") path_column))%nat.
Proof.
  revert result. induction path_column as [|filename rest IH]; intros result H.
  - injection H as <-. split; [done|]. simpl. lia.
  - cbn [insertCheckpointPaths] in H. rewrite filter_cons.
    destruct (decide (filename <> "")) as [Hne|Heq].
    + rewrite bool_decide_eq_false_2 in H by done.
      case_bool_decide as Hin; [discriminate|].
      apply IH in H as [Hsub Hsize]. split.
      * etrans; [apply union_subseteq_r|exact Hsub].
      * rewrite Hsize, size_union, size_singleton
          by (by apply disjoint_singleton_l).
        simpl. lia.
    + assert (filename = "") as -> by (by destruct (decide (filename = ""))).
      rewrite bool_decide_eq_true_2 in H by done. by apply IH.
Qed.

Lemma checkpoint_rows_counted_witness :
  (∅ : gset string) ⊆ {[ "lake/t/b.parquet"; "lake/t/c.parquet" ]} /\
  size ({[ "lake/t/b.parquet"; "lake/t/c.parquet" ]} : gset string) =
    (size (∅ : gset string) +
     length (filter (fun filename => filename <> "")
               ["b.parquet"; ""; "c.parquet"]))%nat.
Proof.
  apply (checkpoint_rows_counted Sample.configuration
           ["b.parquet"; ""; "c.parquet"] ∅
           {[ "lake/t/b.parquet"; "lake/t/c.parquet" ]}).
  vm_compute. reflexivity.
Defined.

(** ** The driver *)

Section Driver.
Context {E : Collaborators} (configuration : Configuration)
        {helper : MetadataReadHelper}.

Local Open Scope list_scope.

Lemma processKeys_cons (key : string) (keys : list string) (st : ParserState)
    (trace : list Event) :
  processKeys configuration (key :: keys) st trace =
  match readDocuments key configuration with
  | Ok documents =>
      match processDocuments configuration documents st with
      | Ok st' => processKeys configuration keys st' (trace ++ [ReadCall key])
      | Throw e => (Throw e, trace ++ [ReadCall key])
      end
  | Throw e => (Throw e, trace ++ [ReadCall key])
  end.
Proof.
  cbn [processKeys]. unfold mbind at 1. unfold IO_bind, processMetadataFile.
  unfold mbind at 1. unfold IO_bind, io_readDocuments, io_lift.
  destruct (readDocuments key configuration) as [documents|e]; [|done].
  by destruct (processDocuments configuration documents st).
Qed.

(** The listed files are read in the order of the listing, up to the first
    one that fails. *)
Lemma processKeys_trace (keys : list string) :
  forall (st : ParserState) (trace : list Event),
  exists n, (n <= length keys)%nat /\
    snd (processKeys configuration keys st trace)
    = trace ++ map ReadCall (take n keys) /\
    (isOk (fst (processKeys configuration keys st trace)) = true ->
     n = length keys) /\
    (forall e, fst (processKeys configuration keys st trace) = Throw e ->
     first_failure configuration keys st n e).
Proof.
  induction keys as [|key keys IH]; intros st trace.
  - exists O. simpl. rewrite app_nil_r. repeat split; [lia|discriminate].
  - rewrite processKeys_cons.
    destruct (readDocuments key configuration) as [documents|e] eqn:Hread.
    + destruct (processDocuments configuration documents st) as [st'|e] eqn:Hrun.
      * destruct (IH st' (trace ++ [ReadCall key]))
          as (n & Hn & Htrace & Hall & Hstop).
        exists (S n). split; [simpl; lia|]. split; [|split].
        -- by rewrite Htrace, <- app_assoc.
        -- intros Hok. simpl. f_equal. by apply Hall.
        -- intros e He.
           destruct (Hstop e He)
             as (contents & st1 & failing & Hpos & Hreads & Hfiles & Hkey & Hfail).
           exists (documents :: contents), st1, failing.
           destruct n as [|n]; [lia|]. simpl in *.
           rewrite Nat.sub_0_r in *.
           repeat split; [lia| |by rewrite Hrun|done|done].
           by constructor.
      * exists 1%nat. simpl. split; [lia|]. split; [done|].
        split; [discriminate|]. intros e' [= <-].
        exists [], st, key. simpl. repeat split; [lia|constructor|].
        right. by exists documents.
    + exists 1%nat. simpl. split; [lia|]. split; [done|].
      split; [discriminate|]. intros e' [= <-].
      exists [], st, key. simpl. repeat split; [lia|constructor|]. by left.
Qed.

(** Without a checkpoint version, the log is listed and the listed files
    are processed. *)
Lemma processMetadataFiles_listing (fuel : nat) (trace : list Event) :
  fst (readLastCheckpointIfExists configuration trace) = Ok 0 ->
  processMetadataFiles configuration fuel trace =
  match processKeys configuration
          (listFiles configuration deltalake_metadata_directory metadata_file_suffix)
          initial_state
          (snd (readLastCheckpointIfExists configuration trace)
           ++ [ListFilesCall deltalake_metadata_directory metadata_file_suffix]) with
  | (Ok st', trace2) => (Ok (Some (makeMetadata st')), trace2)
  | (Throw e, trace2) => (Throw e, trace2)
  end.
Proof.
  intros Hversion.
  rewrite processMetadataFiles_unfold, getCheckpointIfExists_unfold.
  destruct (readLastCheckpointIfExists configuration trace) as [r trace1].
  simpl in Hversion. subst r. by rewrite !bool_decide_eq_true_2 by done.
Qed.

(** While a checkpoint version is recorded, the outcome of the load of the
    checkpoint decides how the run goes on. *)
Lemma processMetadataFiles_checkpoint (fuel : nat) (object : Object)
    (rest : list json) (version : N) :
  exists_ (metadata_path configuration "_last_checkpoint") configuration = true ->
  readDocuments (metadata_path configuration "_last_checkpoint") configuration
  = Ok (JObject object :: rest) ->
  getUInt (get object "version") = Ok version ->
  version <> 0 ->
  processMetadataFiles configuration fuel [] =
  match readCheckpoint
          (metadata_path configuration (withPadding version ++ ".checkpoint.parquet"))
          configuration with
  | Ok res_columns =>
      if bool_decide (length res_columns <> 2%nat)
      then (Throw INCORRECT_DATA, checkpoint_events configuration version)
      else
        match insertCheckpointPaths configuration
                (default [] (head res_columns)) ∅ with
        | Ok files =>
            match processVersions configuration fuel version
                    (with_result_files initial_state files)
                    (checkpoint_events configuration version) with
            | (Ok (Some (_, st')), trace2) => (Ok (Some (makeMetadata st')), trace2)
            | (Ok None, trace2) => (Ok None, trace2)
            | (Throw e, trace2) => (Throw e, trace2)
            end
        | Throw e => (Throw e, checkpoint_events configuration version)
        end
  | Throw e => (Throw e, checkpoint_events configuration version)
  end.
Proof.
  intros Hexists Hread Hversion Hne.
  rewrite processMetadataFiles_unfold, getCheckpointIfExists_unfold,
    readLastCheckpointIfExists_unfold.
  cbv zeta. rewrite Hexists, Hread. simpl. rewrite Hversion.
  rewrite bool_decide_eq_false_2 by done. unfold checkpoint_events.
  destruct (readCheckpoint _ configuration) as [res_columns|e]; [|done].
  case_bool_decide; [done|].
  destruct (insertCheckpointPaths _ _ _) as [files|e]; [|done]. simpl.
  by rewrite bool_decide_eq_false_2 by done.
Qed.

End Driver.

(** X14.  When [_last_checkpoint] is absent, the run checks for it once,
    lists the log once and then reads listed files only, in the order of the
    listing and without a check of existence; it reads all of them when it
    succeeds and stops at the first failure otherwise: the last file read is
    then the first one that cannot be read or whose documents cannot be
    processed, and the error is the one of this file.  No checkpoint file
    is read, the run always ends, and it ends with a snapshot or an
    error. *)
Theorem log_listing_without_checkpoint {E : Collaborators}
    (configuration : Configuration) {helper : MetadataReadHelper} (fuel : nat) :
  exists_ (metadata_path configuration "_last_checkpoint") configuration = false ->
  let keys :=
    listFiles configuration deltalake_metadata_directory metadata_file_suffix in
  (exists n, (n <= length keys)%nat /\
     snd (processMetadataFiles configuration fuel []) =
       (ExistsCall (metadata_path configuration "_last_checkpoint")
        :: ListFilesCall deltalake_metadata_directory metadata_file_suffix
        :: map ReadCall (take n keys))%list /\
     (isOk (fst (processMetadataFiles configuration fuel [])) = true ->
      n = length keys) /\
     (forall e, fst (processMetadataFiles configuration fuel []) = Throw e ->
      first_failure configuration keys initial_state n e)) /\
  fst (processMetadataFiles configuration fuel []) <> Ok None /\
  forall fuel',
    processMetadataFiles configuration fuel' []
    = processMetadataFiles configuration fuel [].
Proof.
  intros Habsent keys.
  assert (Hlast : readLastCheckpointIfExists configuration []
                  = (Ok 0, [ExistsCall (metadata_path configuration "_last_checkpoint")])).
  { rewrite readLastCheckpointIfExists_unfold. cbv zeta. by rewrite Habsent. }
  assert (Hrun : forall f, processMetadataFiles configuration f [] =
            match processKeys configuration keys initial_state
                    [ExistsCall (metadata_path configuration "_last_checkpoint");
                     ListFilesCall deltalake_metadata_directory metadata_file_suffix]
            with
            | (Ok st', trace2) => (Ok (Some (makeMetadata st')), trace2)
            | (Throw e, trace2) => (Throw e, trace2)
            end).
  { intros f. rewrite processMetadataFiles_listing by (by rewrite Hlast).
    by rewrite Hlast. }
  split; [|split].
  - rewrite Hrun.
    destruct (processKeys_trace configuration keys initial_state
                [ExistsCall (metadata_path configuration "_last_checkpoint");
                 ListFilesCall deltalake_metadata_directory metadata_file_suffix])
      as (n & Hn & Htrace & Hall & Hstop).
    exists n. split; [done|].
    destruct (processKeys _ _ _ _) as [[st'|e] trace2]; simpl in *;
      (split; [done|]); (split; [done || discriminate|]).
    + discriminate.
    + intros e' [= <-]. by apply Hstop.
  - rewrite Hrun. by destruct (processKeys _ _ _ _) as [[st'|e] trace2].
  - intros fuel'. by rewrite !Hrun.
Qed.

Lemma log_listing_without_checkpoint_witness :
  fst (Sample.run (Sample.store [[Sample.add "a.parquet" []];
                                 [Sample.remove "a.parquet"]])) <> Ok None.
Proof.
  apply (@log_listing_without_checkpoint Sample.environment Sample.configuration
           (Reference.helper (Sample.store [[Sample.add "a.parquet" []];
                                            [Sample.remove "a.parquet"]])) 100).
  vm_compute. reflexivity.
Defined.

(** X15.  A [_last_checkpoint] that records version 0 is treated as no
    checkpoint: after the read of [_last_checkpoint] the log is listed, and
    when the listed files can be read the snapshot is the one of their
    documents, taken in the order of the listing, from the empty state. *)
Theorem checkpoint_version_zero_is_no_checkpoint {E : Collaborators}
    (configuration : Configuration) {helper : MetadataReadHelper} (fuel : nat)
    (object : Object) (rest : list json) (contents : list (list json)) :
  exists_ (metadata_path configuration "_last_checkpoint") configuration = true ->
  readDocuments (metadata_path configuration "_last_checkpoint") configuration
  = Ok (JObject object :: rest) ->
  getUInt (get object "version") = Ok 0 ->
  Forall2 (fun key documents => readDocuments key configuration = Ok documents)
          (listFiles configuration deltalake_metadata_directory metadata_file_suffix)
          contents ->
  fst (processMetadataFiles configuration fuel [])
  = (st ← processDocuments configuration (concat contents) initial_state;
     Ok (Some (makeMetadata st))) /\
  exists reads,
    snd (processMetadataFiles configuration fuel []) =
      (ExistsCall (metadata_path configuration "_last_checkpoint")
       :: ReadCall (metadata_path configuration "_last_checkpoint")
       :: ListFilesCall deltalake_metadata_directory metadata_file_suffix
       :: map ReadCall reads)%list /\
    reads `prefix_of`
      listFiles configuration deltalake_metadata_directory metadata_file_suffix.
Proof.
  intros Hexists Hread Hversion Hkeys.
  assert (Hlast : readLastCheckpointIfExists configuration []
                  = (Ok 0, [ExistsCall (metadata_path configuration "_last_checkpoint");
                            ReadCall (metadata_path configuration "_last_checkpoint")])).
  { rewrite readLastCheckpointIfExists_unfold. cbv zeta.
    rewrite Hexists, Hread. simpl. by rewrite Hversion. }
  set (last_checkpoint_file := metadata_path configuration "_last_checkpoint") in *.
  rewrite processMetadataFiles_listing by (by rewrite Hlast).
  rewrite Hlast. cbn [snd app].
  set (keys := listFiles configuration deltalake_metadata_directory
                 metadata_file_suffix) in *.
  set (trace := [ExistsCall last_checkpoint_file; ReadCall last_checkpoint_file;
                 ListFilesCall deltalake_metadata_directory metadata_file_suffix]).
  pose proof (processKeys_result configuration keys contents initial_state trace Hkeys)
    as Hresult.
  destruct (processKeys_trace configuration keys initial_state trace)
    as (n & _ & Htrace & _).
  rewrite processFiles_concat in Hresult.
  destruct (processKeys configuration keys initial_state trace) as [[st'|e] trace2];
    simpl in Hresult, Htrace |- *; rewrite <- Hresult; (split; [done|]);
    exists (take n keys); (split; [done|]); apply prefix_take.
Qed.

Lemma checkpoint_version_zero_is_no_checkpoint_witness :
  fst (@processMetadataFiles Sample.environment Sample.configuration
         (Reference.helper
            (Sample.store_with_checkpoint 0 ["old.parquet"]
               [(0, [Sample.add "a.parquet" []]); (1, [Sample.add "b.parquet" []])]))
         5 [])
  = (st ← @processDocuments Sample.environment Sample.configuration
            (concat [[Sample.add "a.parquet" []]; [Sample.add "b.parquet" []]])
            initial_state;
     Ok (Some (makeMetadata st))).
Proof.
  refine (proj1 (@checkpoint_version_zero_is_no_checkpoint Sample.environment
                   Sample.configuration
                   (Reference.helper
                      (Sample.store_with_checkpoint 0 ["old.parquet"]
                         [(0, [Sample.add "a.parquet" []]);
                          (1, [Sample.add "b.parquet" []])]))
                   5 [("version", JNumber 0)] []
                   [[Sample.add "a.parquet" []]; [Sample.add "b.parquet" []]]
                   _ _ _ _)).
  - vm_compute. reflexivity.
  - vm_compute. reflexivity.
  - vm_compute. reflexivity.
  - vm_compute. repeat constructor.
Defined.

(** X16.  While [_last_checkpoint] records a version other than 0, the
    checkpoint file of that version must be readable and must have exactly
    two columns: a failed read ends the run with the error of the read, and
    another number of columns ends it with [INCORRECT_DATA].  In both cases
    the calls made are the three of the load; no log file is looked for. *)
Theorem checkpoint_must_load {E : Collaborators}
    (configuration : Configuration) {helper : MetadataReadHelper} (fuel : nat)
    (object : Object) (rest : list json) (version : N) :
  exists_ (metadata_path configuration "_last_checkpoint") configuration = true ->
  readDocuments (metadata_path configuration "_last_checkpoint") configuration
  = Ok (JObject object :: rest) ->
  getUInt (get object "version") = Ok version ->
  version <> 0 ->
  let checkpoint_path :=
    metadata_path configuration (withPadding version ++ ".checkpoint.parquet") in
  (forall e, readCheckpoint checkpoint_path configuration = Throw e ->
     processMetadataFiles configuration fuel []
     = (Throw e, checkpoint_events configuration version)) /\
  (forall res_columns,
     readCheckpoint checkpoint_path configuration = Ok res_columns ->
     length res_columns <> 2%nat ->
     processMetadataFiles configuration fuel []
     = (Throw INCORRECT_DATA, checkpoint_events configuration version)).
Proof.
  intros Hexists Hread Hversion Hne checkpoint_path.
  pose proof (processMetadataFiles_checkpoint configuration fuel object rest version
                Hexists Hread Hversion Hne) as Hrun.
  fold checkpoint_path in Hrun. split.
  - intros e He. by rewrite He in Hrun.
  - intros res_columns Hcolumns Hlength. rewrite Hcolumns in Hrun.
    by rewrite bool_decide_eq_true_2 in Hrun by done.
Qed.

Lemma checkpoint_must_load_witness :
  @processMetadataFiles Sample.environment Sample.configuration
    (Reference.helper
       {| Reference.json_files :=
            [(Sample.log_path "_last_checkpoint", [JObject [("version", JNumber 7)]]);
             (Sample.log_path (log_file_name 8), [Sample.add "a.parquet" []])];
          Reference.parquet_files :=
            [(Sample.log_path (withPadding 7 ++ ".checkpoint.parquet"),
              [["b.parquet"]])] |})
    5 []
  = (Throw INCORRECT_DATA, checkpoint_events Sample.configuration 7).
Proof.
  refine (proj2 (@checkpoint_must_load Sample.environment Sample.configuration
                   (Reference.helper
                      {| Reference.json_files :=
                           [(Sample.log_path "_last_checkpoint",
                             [JObject [("version", JNumber 7)]]);
                            (Sample.log_path (log_file_name 8),
                             [Sample.add "a.parquet" []])];
                         Reference.parquet_files :=
                           [(Sample.log_path (withPadding 7 ++ ".checkpoint.parquet"),
                             [["b.parquet"]])] |})
                   5 [("version", JNumber 7)] [] 7 _ _ _ _) [["b.parquet"]] _ _).
  - vm_compute. reflexivity.
  - vm_compute. reflexivity.
  - vm_compute. reflexivity.
  - discriminate.
  - vm_compute. reflexivity.
  - simpl. lia.
Defined.

(** X17.  In the scan of versions every read of a log file comes right after
    a check of existence of the same path that found the file, and a check
    that is not followed by a read found no file.  The scan ends without
    error only at a version whose file is absent. *)
Theorem scan_reads_only_checked_files {E : Collaborators}
    (configuration : Configuration) {helper : MetadataReadHelper} (fuel : nat) :
  forall (version : N) (st : ParserState) (trace : list Event),
  (exists events,
     snd (processVersions configuration fuel version st trace)
     = (trace ++ events)%list /\
     checked_reads configuration events) /\
  forall last st',
    fst (processVersions configuration fuel version st trace) = Ok (Some (last, st')) ->
    exists_ (metadata_path configuration (log_file_name last)) configuration = false.
Proof.
  induction fuel as [|fuel IH]; intros version st trace.
  - split; [|discriminate]. exists []. by rewrite app_nil_r.
  - rewrite processVersions_S. cbv zeta.
    set (next := wrap64 (version + 1)).
    set (file_path := metadata_path configuration (log_file_name next)).
    destruct (exists_ file_path configuration) eqn:Hexists.
    + destruct (readDocuments file_path configuration) as [documents|e].
      * destruct (processDocuments configuration documents st) as [st1|e].
        -- destruct (IH next st1
                       (trace ++ [ExistsCall file_path; ReadCall file_path])%list)
             as [(events & Hevents & Hchecked) Hlast].
           split; [|exact Hlast].
           exists (ExistsCall file_path :: ReadCall file_path :: events).
           split; [by rewrite Hevents, <- app_assoc|]. by simpl.
        -- split; [|discriminate].
           by exists [ExistsCall file_path; ReadCall file_path].
      * split; [|discriminate].
        by exists [ExistsCall file_path; ReadCall file_path].
    + split.
      * by exists [ExistsCall file_path].
      * simpl. intros last st' [= <- <-]. exact Hexists.
Qed.

Section SchemaColumns.
Context {E : Collaborators}.

Lemma readSchemaField_spec (element : json) (column : NameAndTypePair) :
  readSchemaField element = Ok column <-> schema_column element column.
Proof.
  unfold readSchemaField, schema_column. split.
  - intros H.
    apply bind_Ok in H as (field & Hfield & H).
    apply bind_Ok in H as (name & Hname & H).
    apply bind_Ok in H as (type & Htype & H).
    apply bind_Ok in H as (is_nullable & Hnullable & H).
    apply bind_Ok in H as (schema_metadata_object & Hmetadata & H).
    apply bind_Ok in H as (physical_name & Hphysical & H).
    apply bind_Ok in H as (data_type & Hdata_type & H).
    injection H as <-.
    destruct element; try discriminate. injection Hfield as ->.
    exists field, schema_metadata_object, name, type, is_nullable.
    repeat split; try done. simpl.
    destruct (has schema_metadata_object _); [done|congruence].
  - intros (field & schema_metadata_object & name & type & is_nullable & -> &
            Hname & Htype & Hnullable & Hmetadata & Hphysical & Hdata_type).
    simpl. rewrite Hname. simpl. rewrite Htype. simpl. rewrite Hnullable. simpl.
    rewrite Hmetadata. simpl.
    destruct column as [physical_name data_type]. simpl in *.
    destruct (has schema_metadata_object _).
    + rewrite Hphysical. simpl. by rewrite Hdata_type.
    + subst name. simpl. by rewrite Hdata_type.
Qed.

End SchemaColumns.

(** X18.  The schema read from a [metaData] member has one column for each
    element of [fields] of the parsed [schemaString], in the order of
    [fields]: each column is named by the physical name of the column
    mapping when the field has one and by the name of the field otherwise,
    and every field must have [name], [type], [nullable] and an object
    [metadata].  Nothing else of the member is used. *)
Theorem schema_columns_follow_fields {E : Collaborators} (object : Object)
    (schema : NamesAndTypesList) :
  readSchema object = Ok schema <->
  exists (metadata_object fields_object : Object) (text : string)
         (fields : list json),
    get object "metaData" = JObject metadata_object /\
    getValue_String metadata_object "schemaString" = Ok text /\
    JSON_parse text = Ok (JObject fields_object) /\
    get fields_object "fields" = JArray fields /\
    Forall2 schema_column fields schema.
Proof.
  unfold readSchema. split.
  - intros H.
    apply bind_Ok in H as (metadata_object & Hmetadata & H).
    apply bind_Ok in H as (text & Htext & H).
    apply bind_Ok in H as (fields_json & Hparse & H).
    apply bind_Ok in H as (fields_object & Hobject & H).
    apply bind_Ok in H as (fields & Hfields & H).
    destruct (get object "metaData"); try discriminate.
    injection Hmetadata as ->.
    destruct fields_json; try discriminate. injection Hobject as ->.
    destruct (get fields_object "fields") eqn:Hget; try discriminate.
    injection Hfields as ->.
    exists metadata_object, fields_object, text, fields.
    repeat split; try done.
    apply mapM_Result_inv in H.
    eapply Forall2_impl; [exact H|].
    intros element column. apply readSchemaField_spec.
  - intros (metadata_object & fields_object & text & fields & Hmetadata & Htext &
            Hparse & Hfields & Hcolumns).
    rewrite Hmetadata. simpl. rewrite Htext. simpl. rewrite Hparse. simpl.
    rewrite Hfields. simpl.
    apply mapM_Result_Ok.
    eapply Forall2_impl; [exact Hcolumns|].
    intros element column. apply readSchemaField_spec.
Qed.

Lemma schema_columns_follow_fields_witness :
  exists (metadata_object fields_object : Object) (text : string)
         (fields : list json),
    get (Sample.metaData_members Sample.schema_user_id) "metaData"
    = JObject metadata_object /\
    @getValue_String Sample.environment metadata_object "schemaString" = Ok text /\
    @JSON_parse Sample.environment text = Ok (JObject fields_object) /\
    get fields_object "fields" = JArray fields /\
    Forall2 (@schema_column Sample.environment) fields [("col-abc", TInt32)].
Proof.
  apply (proj1 (@schema_columns_follow_fields Sample.environment
                  (Sample.metaData_members Sample.schema_user_id)
                  [("col-abc", TInt32)])).
  vm_compute. reflexivity.
Defined.
